(** * Copy and cut handlers of the draft-js editor (aminland fork)

    A shallow embedding of [lib/editOnCopy.js], of
    [src/component/handlers/edit/editOnCut.js] (and its compiled build) and
    of the build of [editOnCopy] that does not reconstruct the lists,
    followed by the properties of the
    nested-list reconstruction, of the block identity remapping and of the
    effects the handlers have on the editor, the event and the clipboard.

    JavaScript strings are [string]; numbers that hold an indentation are
    [Z]; plain objects used as maps are [gmap string _]; Immutable ordered
    maps of blocks are lists of blocks in insertion order, keyed by the
    block's own key. Calls on the editor, the event and the timer queue are
    state transformers over a [World] that also records them in a log. *)

From Stdlib Require Import ZArith String Ascii List Lia.
From stdpp Require Import base decidable option list strings gmap.

Local Open Scope string_scope.
Local Set Warnings "-register-all".

(** ** JavaScript strings *)

(** [s.repeat(n)] for a count [n] that is not negative. *)
Fixpoint repeatN (s : string) (n : nat) : string :=
  match n with
  | O => ""
  | S n' => s +:+ repeatN s n'
  end.

(** [String.prototype.repeat]: the handlers only call it under a guard that
    makes the count positive, so the [RangeError] of a negative count is
    never met. *)
Definition String_repeat (s : string) (count : Z) : string :=
  repeatN s (Z.to_nat count).

(** Truthiness of a number: every number but zero. *)
Definition truthy (n : Z) : bool := negb (n =? 0)%Z.

(** ** The DOM *)

Inductive Node : Type :=
| Text (data : string)
| Element (tagName : string) (attributes : list (string * string))
    (childNodes : list Node).

Fixpoint getAttr (name : string) (attrs : list (string * string)) : option string :=
  match attrs with
  | [] => None
  | (n, v) :: rest => if bool_decide (n = name) then Some v else getAttr name rest
  end.

Fixpoint setAttr (name value : string) (attrs : list (string * string))
  : list (string * string) :=
  match attrs with
  | [] => [(name, value)]
  | (n, v) :: rest =>
      if bool_decide (n = name) then (n, value) :: rest
      else (n, v) :: setAttr name value rest
  end.

Definition createElement (tag : string) : Node := Element tag [] [].

Definition getAttribute (name : string) (n : Node) : option string :=
  match n with
  | Text _ => None
  | Element _ attrs _ => getAttr name attrs
  end.

Definition setAttribute (name value : string) (n : Node) : Node :=
  match n with
  | Text d => Text d
  | Element t attrs cs => Element t (setAttr name value attrs) cs
  end.

(** [parent.appendChild(fragment)] for a document fragment: its children are
    moved to the end of the parent's. *)
Definition appendChild (parent : Node) (fragment : list Node) : Node :=
  match parent with
  | Text d => Text d
  | Element t attrs cs => Element t attrs (cs ++ fragment)%list
  end.

(** [node.cloneNode(deep)]: without [deep] (or with a false one) the copy has
    the attributes and no children. *)
Definition cloneNode (deep : bool) (n : Node) : Node :=
  match n with
  | Text d => Text d
  | Element t attrs cs => Element t attrs (if deep then cs else [])
  end.

Definition hasAttrValue (name value : string) (n : Node) : bool :=
  bool_decide (getAttribute name n = Some value).

(** The selector [[contenteditable=false]]. *)
Definition matchesNotEditable (n : Node) : bool :=
  hasAttrValue "contenteditable" "false" n.

(** The selector [[data-block="true"][data-offset-key="<k>-0-0"]]. *)
Definition matchesBlock (k : string) (n : Node) : bool :=
  hasAttrValue "data-block" "true" n
  && hasAttrValue "data-offset-key" (k +:+ "-0-0") n.

(** [Array.from(el.querySelectorAll(sel)).forEach(e => e.remove())]: every
    descendant that matches is detached, with what is below it. *)
Fixpoint removeAll (sel : Node -> bool) (n : Node) : Node :=
  match n with
  | Text d => Text d
  | Element t attrs cs =>
      Element t attrs
        ((fix go (l : list Node) : list Node :=
            match l with
            | [] => []
            | c :: l' => if sel c then go l' else removeAll sel c :: go l'
            end) cs)
  end.

(** The first node in tree order, the node itself included, that matches. *)
Fixpoint findFirst (sel : Node -> bool) (n : Node) : option Node :=
  if sel n then Some n
  else
    match n with
    | Text _ => None
    | Element _ _ cs =>
        (fix go (l : list Node) : option Node :=
           match l with
           | [] => None
           | c :: l' =>
               match findFirst sel c with
               | Some r => Some r
               | None => go l'
               end
           end) cs
    end.

(** [el.querySelector(sel)]: the first descendant in tree order that
    matches, [None] for JavaScript's [null]. *)
Definition querySelector (sel : Node -> bool) (el : Node) : option Node :=
  match el with
  | Text _ => None
  | Element _ _ cs =>
      (fix go (l : list Node) : option Node :=
         match l with
         | [] => None
         | c :: l' =>
             match findFirst sel c with
             | Some r => Some r
             | None => go l'
             end
         end) cs
  end.

(** ** The document model *)

(** A content block: its key, its text and the [indent] entry of its data
    map when it has one. *)
Record ContentBlock : Type := {
  getKey : string;
  getText : string;
  dataIndent : option Z
}.

(** [block.getIn(['data', 'indent'], 0)] *)
Definition getIndent (block : ContentBlock) : Z := default 0%Z (dataIndent block).

(** An ordered map of blocks, in insertion order, each under its own key. *)
Definition BlockMap : Type := list ContentBlock.

Definition keySeq (m : BlockMap) : list string := map getKey m.

Definition toArray (m : BlockMap) : list ContentBlock := m.

Fixpoint getBlock (m : BlockMap) (k : string) : option ContentBlock :=
  match m with
  | [] => None
  | b :: m' => if bool_decide (getKey b = k) then Some b else getBlock m' k
  end.

(** [fragment.getIn([k, 'text'], '')] *)
Definition getInText (m : BlockMap) (k : string) : string :=
  match getBlock m k with
  | Some b => getText b
  | None => ""
  end.

(** Setting a key of an ordered map: a key already there keeps its place
    and takes the new value, a new key goes to the end. *)
Fixpoint omSet (b : ContentBlock) (m : BlockMap) : BlockMap :=
  match m with
  | [] => [b]
  | b' :: m' =>
      if bool_decide (getKey b' = getKey b) then b :: m' else b' :: omSet b m'
  end.

Record ContentState : Type := { getBlockMap : BlockMap }.

(** Modelled from the spec: [ContentState.createFromBlockArray] is not among
    the source files; a fragment is "an ordered mapping (same shape as
    Document)", built here by setting each block of the array under its
    key, in order. *)
Definition createFromBlockArray (blocks : list ContentBlock) : ContentState :=
  {| getBlockMap := fold_left (fun m b => omSet b m) blocks [] |}.

Definition getBlocksAsArray (content : ContentState) : list ContentBlock :=
  toArray (getBlockMap content).

(** Modelled from the spec: [ContentState.getBlockAfter] is not among the
    source files; "order is significant and defines document order", so it
    is the block that follows the key in the ordered map. *)
Fixpoint blockAfter (m : BlockMap) (k : string) : option ContentBlock :=
  match m with
  | [] => None
  | b :: m' => if bool_decide (getKey b = k) then head m' else blockAfter m' k
  end.

Definition getBlockAfter (content : ContentState) (k : string) : option ContentBlock :=
  blockAfter (getBlockMap content) k.

(** Modelled from the spec: the selection is "a range reference consisting
    of (startBlockId, startOffset, endBlockId, endOffset, isCollapsed)". *)
Record SelectionState : Type := {
  getStartKey : string;
  getStartOffset : Z;
  getEndKey : string;
  getEndOffset : Z;
  isCollapsed : bool
}.

(** Modelled from the spec: the editor state is not among the source files;
    the handlers read from it the current content, "an ordered mapping from
    block identifier to Block", and the selection. *)
Record EditorState : Type := {
  getCurrentContent : ContentState;
  getSelection : SelectionState
}.

(** ** Completions *)

(** The exceptions the statements of the handlers raise by the rules of the
    language and of the DOM: the [TypeError] of a property read on
    [undefined] and of a call on a missing [clipboardData], and the
    [IndexSizeError] of [getRangeAt]. The limits of an engine, such as the
    longest string it builds, are not part of the model. *)
Inductive JsError : Type := TypeError | IndexSizeError.

(** How a piece of JavaScript ends: with a value, or with an exception. *)
Inductive Completion (A : Type) : Type :=
| Normal (a : A)
| Throw (err : JsError).

Arguments Normal {A} a.
Arguments Throw {A} err.

(** [array.reduce(f, init)] for a callback that may throw. *)
Fixpoint reduce {A B : Type} (f : B -> A -> Completion B) (arr : list A) (init : B)
  : Completion B :=
  match arr with
  | [] => Normal init
  | x :: rest =>
      match f init x with
      | Normal acc => reduce f rest acc
      | Throw err => Throw err
      end
  end.

(** ** The nested-list reconstructor *)

(** The accumulator of the reduction over the fragment's blocks. *)
Record Acc : Type := { lastIndentation : Z; html : string }.

Definition getHasChild (contentState : ContentState) (block : ContentBlock) : bool :=
  match getBlockAfter contentState (getKey block) with
  | None => false
  | Some after => (getIndent block <? getIndent after)%Z
  end.

Definition getIsLastChild (contentState : ContentState) (block : ContentBlock) : bool :=
  match getBlockAfter contentState (getKey block) with
  | None => false
  | Some after => (getIndent after <? getIndent block)%Z
  end.

Section Reconstructor.

(** [element.outerHTML], the platform's serialisation of an element. *)
Variable outerHTML : Node -> string.

(** The callback of the reduction, [editOnCopy.js] lines 106-141 and
    [editOnCut.js] lines 144-180. Reading [outerHTML] of an element that the
    map does not hold is a [TypeError]. *)
Definition reduceBlock (content : ContentState)
    (blockKeyToElementMap : gmap string Node) (acc : Acc) (item : ContentBlock)
  : Completion Acc :=
  let hasChild := getHasChild content item in
  let isLastChild := getIsLastChild content item in
  let indent := getIndent item in
  let lastIndentation := lastIndentation acc in
  let html := html acc in
  match blockKeyToElementMap !! getKey item with
  | None => Throw TypeError
  | Some itemElement =>
      let currentItemHtml := outerHTML itemElement in
      let currentItemHtml :=
        if truthy indent then "<li>" +:+ currentItemHtml +:+ "</li>"
        else currentItemHtml in
      let sunkDepth := (indent - lastIndentation)%Z in
      let currentItemHtml :=
        if (0 <? sunkDepth)%Z
        then String_repeat "<ul>" sunkDepth +:+ currentItemHtml
        else currentItemHtml in
      let currentItemHtml :=
        if (sunkDepth <? 0)%Z
        then String_repeat "</ul>" (- sunkDepth) +:+ currentItemHtml
        else currentItemHtml in
      Normal {| lastIndentation := indent; html := html +:+ currentItemHtml |}
  end.

(** [inner]: the reduction over [content.getBlocksAsArray()] from
    [{lastIndentation: 0, html: ''}]. *)
Definition inner (content : ContentState) (blockKeyToElementMap : gmap string Node)
  : Completion Acc :=
  reduce (reduceBlock content blockKeyToElementMap) (getBlocksAsArray content)
    {| lastIndentation := 0; html := "" |}.

End Reconstructor.

(** ** The block identity remapper *)

(** [seq.skipUntil(p)]: the entries from the first that satisfies [p] on. *)
Fixpoint skipUntil {A : Type} (p : A -> bool) (l : list A) : list A :=
  match l with
  | [] => []
  | x :: l' => if p x then x :: l' else skipUntil p l'
  end.

(** [seq.takeUntil(p)]: the entries before the first that satisfies [p]. *)
Fixpoint takeUntil {A : Type} (p : A -> bool) (l : list A) : list A :=
  match l with
  | [] => []
  | x :: l' => if p x then [] else x :: takeUntil p l'
  end.

(** [array.reduce((acc, item, index) => ..., init)] *)
Fixpoint reduceIndexed {A B : Type} (f : B -> A -> nat -> B) (arr : list A)
    (index : nat) (acc : B) : B :=
  match arr with
  | [] => acc
  | x :: rest => reduceIndexed f rest (S index) (f acc x index)
  end.

(** A value used as a property name or inside a string concatenation:
    [undefined] reads as the string of that name. *)
Definition toPropertyKey (v : option string) : string := default "undefined" v.

(** The keys of the live document from the selection's start key to its end
    key, [editOnCopy.js] lines 71-75. *)
Definition selectedBlockKeysOf (editorState : EditorState) (selection : SelectionState)
  : list string :=
  let startKey := getStartKey selection in
  let endKey := getEndKey selection in
  (takeUntil (fun item => bool_decide (item = endKey))
     (skipUntil (fun item => bool_decide (item = startKey))
        (keySeq (getBlockMap (getCurrentContent editorState))))
   ++ [endKey])%list.

(** [keyMap], [editOnCopy.js] lines 76-78: the object that takes the
    fragment's key at each index to the live key at that index. *)
Definition keyMapOf (selectedBlockKeys fragmentKeys : list string) : gmap string string :=
  reduceIndexed
    (fun acc item index => <[toPropertyKey (fragmentKeys !! index) := item]> acc)
    selectedBlockKeys 0 ∅.

(** What an object literal inherits from [Object.prototype]. Reading one of
    these names on an object that has no own property of that name gives
    the inherited value, not [undefined]; each name is listed with the text
    the value has inside a string concatenation. The text of a built-in
    function is the engine's (V8's here). *)
Definition nativeFunction (name : string) : string :=
  "function " +:+ name +:+ "() { [native code] }".

Definition objectPrototype : list (string * string) :=
  [("constructor", nativeFunction "Object");
   ("__defineGetter__", nativeFunction "__defineGetter__");
   ("__defineSetter__", nativeFunction "__defineSetter__");
   ("hasOwnProperty", nativeFunction "hasOwnProperty");
   ("__lookupGetter__", nativeFunction "__lookupGetter__");
   ("__lookupSetter__", nativeFunction "__lookupSetter__");
   ("isPrototypeOf", nativeFunction "isPrototypeOf");
   ("propertyIsEnumerable", nativeFunction "propertyIsEnumerable");
   ("toString", nativeFunction "toString");
   ("valueOf", nativeFunction "valueOf");
   ("__proto__", "[object Object]");
   ("toLocaleString", nativeFunction "toLocaleString")].

(** [obj[key]] inside a string concatenation, for an object literal whose
    own properties hold strings: the own property when there is one, what
    [Object.prototype] has under the name otherwise, [undefined] when it
    has nothing. *)
Definition readProperty (obj : gmap string string) (key : string) : string :=
  match obj !! key with
  | Some v => v
  | None => toPropertyKey (getAttr key objectPrototype)
  end.

Section Remapper.

(** Assigning [element.innerHTML]: the platform's parser gives the new
    children. *)
Variable parseHTML : string -> list Node.

Definition setInnerHTML (n : Node) (markup : string) : Node :=
  match n with
  | Text d => Text d
  | Element t attrs _ => Element t attrs (parseHTML markup)
  end.

(** The element of one fragment key, [editOnCopy.js] lines 80-85: the
    rendered element of the live block, or a new [div] around the block's
    text. *)
Definition elementFor (fragment : BlockMap) (keyMap : gmap string string) (el : Node)
    (item : string) : Node :=
  let selector := matchesBlock (readProperty keyMap item) in
  match querySelector selector el with
  | Some element => element
  | None => setInnerHTML (createElement "div") (getInText fragment item)
  end.

(** [blockKeyToElementMap], [editOnCopy.js] lines 79-87. *)
Definition blockKeyToElementMapOf (fragment : BlockMap) (keyMap : gmap string string)
    (el : Node) : gmap string Node :=
  fold_left (fun acc item => <[item := elementFor fragment keyMap el item]> acc)
    (keySeq fragment) ∅.

End Remapper.

(** ** The editor, the event and the timer queue *)

Definition ScrollPosition : Type := (Z * Z)%type.

Inductive RemovalDirection : Type := forward | backward.

Inductive EditorChangeType : Type := remove_range | insert_fragment.

(** The function handed to [setTimeout] by [editOnCut], with the variables
    it closes over. *)
Inductive Callback : Type :=
| CutRecovery (scrollPosition : option ScrollPosition) (editorState : EditorState).

(** The calls the handlers make on the editor, the event and its clipboard. *)
Inductive Call : Type :=
| PreventDefault
| SetClipboard (fragment : option BlockMap)
| SetMode (mode : string)
| SetData (format data : string)
| RestoreEditorDOM (scrollPosition : option ScrollPosition)
| ExitCurrentMode
| Update (editorState : EditorState).

(** Modelled from the spec: the editor component is not among the source
    files; [setClipboard] "replaces the singleton slot unconditionally",
    [setMode] and [exitCurrentMode] are "mode/state transition primitives",
    and [update] makes its argument the editor's state. *)
Record DraftEditor : Type := {
  _latestEditorState : EditorState;
  _clipboard : option BlockMap;
  mode : string
}.

(** The clipboard event: its target when that is a [Node], its
    [clipboardData] when the platform has one, and whether the default
    action was prevented. *)
Record ClipboardEvent : Type := {
  target : option Node;
  clipboardData : option (gmap string string);
  defaultPrevented : bool
}.

(** [window.getSelection()]: the contents of its first range when it has
    one, and its text. *)
Record DomSelection : Type := {
  rangeContents : option (list Node);
  selectionText : string
}.

Record World : Type := {
  editor : DraftEditor;
  event : ClipboardEvent;
  domSelection : DomSelection;
  timers : list Callback;
  log : list Call
}.

Definition withEditor (f : DraftEditor -> DraftEditor) (w : World) : World :=
  {| editor := f (editor w); event := event w; domSelection := domSelection w;
     timers := timers w; log := log w |}.

Definition withEvent (f : ClipboardEvent -> ClipboardEvent) (w : World) : World :=
  {| editor := editor w; event := f (event w); domSelection := domSelection w;
     timers := timers w; log := log w |}.

Definition withTimers (f : list Callback -> list Callback) (w : World) : World :=
  {| editor := editor w; event := event w; domSelection := domSelection w;
     timers := f (timers w); log := log w |}.

Definition logged (c : Call) (w : World) : World :=
  {| editor := editor w; event := event w; domSelection := domSelection w;
     timers := timers w; log := (log w ++ [c])%list |}.

(** A piece of a handler: it reads and changes the world and ends with a
    value or an exception. *)
Definition Js (A : Type) : Type := World -> Completion A * World.

#[global] Instance Js_ret : MRet Js := fun A a w => (Normal a, w).

#[global] Instance Js_bind : MBind Js := fun A B k m w =>
  match m w with
  | (Normal a, w') => k a w'
  | (Throw err, w') => (Throw err, w')
  end.

Definition gets {A : Type} (f : World -> A) : Js A := fun w => (Normal (f w), w).

Definition throw {A : Type} (err : JsError) : Js A := fun w => (Throw err, w).

Definition lift {A : Type} (c : Completion A) : Js A := fun w => (c, w).

Definition perform (c : Call) (f : World -> World) : Js unit :=
  fun w => (Normal tt, logged c (f w)).

(** [e.preventDefault()] *)
Definition preventDefault : Js unit :=
  perform PreventDefault
    (withEvent (fun e => {| target := target e; clipboardData := clipboardData e;
                            defaultPrevented := true |})).

(** [editor.setClipboard(fragment)] *)
Definition setClipboard (fragment : option BlockMap) : Js unit :=
  perform (SetClipboard fragment)
    (withEditor (fun ed => {| _latestEditorState := _latestEditorState ed;
                              _clipboard := fragment; mode := mode ed |})).

(** [editor.setMode(mode)] *)
Definition setMode (m : string) : Js unit :=
  perform (SetMode m)
    (withEditor (fun ed => {| _latestEditorState := _latestEditorState ed;
                              _clipboard := _clipboard ed; mode := m |})).

(** [editor.exitCurrentMode()] *)
Definition exitCurrentMode : Js unit :=
  perform ExitCurrentMode
    (withEditor (fun ed => {| _latestEditorState := _latestEditorState ed;
                              _clipboard := _clipboard ed; mode := "edit" |})).

(** [editor.restoreEditorDOM(scrollPosition)] *)
Definition restoreEditorDOM (scrollPosition : option ScrollPosition) : Js unit :=
  perform (RestoreEditorDOM scrollPosition) id.

(** [editor.update(editorState)] *)
Definition update (editorState : EditorState) : Js unit :=
  perform (Update editorState)
    (withEditor (fun ed => {| _latestEditorState := editorState;
                              _clipboard := _clipboard ed; mode := mode ed |})).

(** [e.clipboardData.setData(format, data)]; a [TypeError] when the event has
    no [clipboardData]. *)
Definition setData (format data : string) : Js unit := fun w =>
  match clipboardData (event w) with
  | Some items =>
      (Normal tt,
       logged (SetData format data)
         (withEvent (fun e => {| target := target e;
                                 clipboardData := Some (<[format := data]> items);
                                 defaultPrevented := defaultPrevented e |}) w))
  | None => (Throw TypeError, w)
  end.

(** [setTimeout(callback, 0)]: the callback joins the timer queue. *)
Definition setTimeout (callback : Callback) : Js unit := fun w =>
  (Normal tt, withTimers (fun q => (q ++ [callback])%list) w).

(** [domSelection.getRangeAt(0).cloneContents()]; an [IndexSizeError] when
    the selection has no range. *)
Definition cloneRangeContents : Js (list Node) := fun w =>
  match rangeContents (domSelection w) with
  | Some nodes => (Normal nodes, w)
  | None => (Throw IndexSizeError, w)
  end.

(** ** The handlers *)

Section Handlers.

(** What the handlers call and the source files do not define: the
    extraction of the selected fragment, [null] as [None]; the raw encoding
    of a content state, [JSON.stringify(convertFromDraftStateToRaw(content))];
    [DraftModifier.removeRange] and [EditorState.push]; and
    [getScrollPosition(Style.getScrollParent(element))]. *)
Variable getFragmentFromSelection : EditorState -> option BlockMap.
Variable serialise : ContentState -> string.
Variable removeRange :
  ContentState -> SelectionState -> RemovalDirection -> ContentState.
Variable push : EditorState -> ContentState -> EditorChangeType -> EditorState.
Variable getScrollPosition : Node -> ScrollPosition.

(** The platform's serialiser and parser of markup: [element.outerHTML] and
    the assignment of [element.innerHTML]. *)
Variable outerHTML : Node -> string.
Variable parseHTML : string -> list Node.

(** The block both [editOnCopy] ([lib/editOnCopy.js] lines 46-144) and
    [editOnCut] ([editOnCut.js] lines 69-183) run, statement for statement
    the same, once the event has a [clipboardData] and the fragment is not
    [null]. *)
Definition populateClipboardData (editorState : EditorState)
    (selection : SelectionState) (fragment : BlockMap) : Js unit :=
  let content := createFromBlockArray (toArray fragment) in
  let serialisedContent := serialise content in
  let fragmentElt := createElement "div" in
  contents ← cloneRangeContents;
  let fragmentElt := appendChild fragmentElt contents in
  let fragmentElt := setAttribute "data-editor-content" serialisedContent fragmentElt in
  let fragmentElt := setAttribute "style" "white-space: pre-wrap;" fragmentElt in
  selectedText ← gets (fun w => selectionText (domSelection w));
  setData "text/plain" selectedText;;
  let el := removeAll matchesNotEditable (cloneNode true fragmentElt) in
  setData "text/html" (outerHTML el);;
  let fragmentKeys := keySeq fragment in
  let selectedBlockKeys := selectedBlockKeysOf editorState selection in
  let keyMap := keyMapOf selectedBlockKeys fragmentKeys in
  let blockKeyToElementMap := blockKeyToElementMapOf parseHTML fragment keyMap el in
  let outputElement := createElement "div" in
  let outputElement := setAttribute "data-editor-content" serialisedContent outputElement in
  let fragmentElt := setAttribute "style" "white-space: pre-wrap;" fragmentElt in
  acc ← lift (inner outerHTML content blockKeyToElementMap);
  let outputElement := setInnerHTML parseHTML outputElement (html acc) in
  setData "text/html" (outerHTML outputElement);;
  preventDefault.

(** [editOnCopy] of [lib/editOnCopy.js]. *)
Definition editOnCopy : Js unit :=
  editorState ← gets (fun w => _latestEditorState (editor w));
  let selection := getSelection editorState in
  if isCollapsed selection then preventDefault
  else
    latest ← gets (fun w => _latestEditorState (editor w));
    let fragment := getFragmentFromSelection latest in
    setClipboard fragment;;
    data ← gets (fun w => clipboardData (event w));
    match data, fragment with
    | Some _, Some fragment => populateClipboardData editorState selection fragment
    | _, _ => mret tt
    end.

(** [editOnCopy] of the second unnamed source file: the captured selection
    is cloned without its children ([cloneNode()]), and nothing is
    reconstructed. *)
Definition editOnCopy_part001 : Js unit :=
  editorState ← gets (fun w => _latestEditorState (editor w));
  let selection := getSelection editorState in
  if isCollapsed selection then preventDefault
  else
    latest ← gets (fun w => _latestEditorState (editor w));
    let fragment := getFragmentFromSelection latest in
    setClipboard fragment;;
    data ← gets (fun w => clipboardData (event w));
    match data, fragment with
    | Some _, Some fragment =>
        let content := createFromBlockArray (toArray fragment) in
        let serialisedContent := serialise content in
        let fragmentElt := createElement "div" in
        contents ← cloneRangeContents;
        let fragmentElt := appendChild fragmentElt contents in
        let fragmentElt :=
          setAttribute "data-editor-content" serialisedContent fragmentElt in
        let fragmentElt := setAttribute "style" "white-space: pre-wrap;" fragmentElt in
        selectedText ← gets (fun w => selectionText (domSelection w));
        setData "text/plain" selectedText;;
        let el := removeAll matchesNotEditable (cloneNode false fragmentElt) in
        setData "text/html" (outerHTML el);;
        preventDefault
    | _, _ => mret tt
    end.

(** [removeFragment], [editOnCut.js] lines 187-194. *)
Definition removeFragment (editorState : EditorState) : EditorState :=
  let newContent :=
    removeRange (getCurrentContent editorState) (getSelection editorState) forward in
  push editorState newContent remove_range.

(** [editOnCut], [editOnCut.js] lines 36-185 (the first unnamed source file
    is its compiled build). *)
Definition editOnCut : Js unit :=
  editorState ← gets (fun w => _latestEditorState (editor w));
  let selection := getSelection editorState in
  element ← gets (fun w => target (event w));
  if isCollapsed selection then preventDefault
  else
    let scrollPosition :=
      match element with
      | Some node => Some (getScrollPosition node)
      | None => None
      end in
    let fragment := getFragmentFromSelection editorState in
    setClipboard fragment;;
    setMode "cut";;
    setTimeout (CutRecovery scrollPosition editorState);;
    data ← gets (fun w => clipboardData (event w));
    match data, fragment with
    | Some _, Some fragment => populateClipboardData editorState selection fragment
    | _, _ => mret tt
    end.

(** Running a function that [setTimeout] was given. *)
Definition runCallback (callback : Callback) : Js unit :=
  match callback with
  | CutRecovery scrollPosition editorState =>
      restoreEditorDOM scrollPosition;;
      exitCurrentMode;;
      update (removeFragment editorState)
  end.

(** The timer queue is emptied once the current task is over: each function
    in it runs once, in the order of the calls of [setTimeout], as a task of
    its own. *)
Fixpoint runTimers (queue : list Callback) (w : World) : World :=
  match queue with
  | [] => w
  | callback :: rest => runTimers rest (snd (runCallback callback w))
  end.

(** An event dispatched to a handler: the handler runs to its end, whether
    it returns or throws, then the timers it left run. *)
Definition dispatch (handler : Js unit) (w : World) : World :=
  let w' := snd (handler w) in
  runTimers (timers w') (withTimers (fun _ => []) w').

End Handlers.

(** ** A serialiser of markup *)

(** The platform's serialisation of a node, after the HTML standard's
    fragment serialisation: text with [&], [<] and [>] escaped; an element
    as its start tag with every attribute, value between double quotes with
    [&] and the quote escaped, then its children and its end tag unless the
    element is void. *)
Definition dquote : string := String (ascii_of_nat 34) EmptyString.

Fixpoint escapeWith (replacement : ascii -> option string) (s : string) : string :=
  match s with
  | EmptyString => EmptyString
  | String c s' =>
      match replacement c with
      | Some r => r +:+ escapeWith replacement s'
      | None => String c (escapeWith replacement s')
      end
  end.

Definition escapeText : string -> string :=
  escapeWith (fun c =>
    if Ascii.eqb c "&" then Some "&amp;"
    else if Ascii.eqb c "<" then Some "&lt;"
    else if Ascii.eqb c ">" then Some "&gt;"
    else None).

Definition escapeAttribute : string -> string :=
  escapeWith (fun c =>
    if Ascii.eqb c "&" then Some "&amp;"
    else if Ascii.eqb c (ascii_of_nat 34) then Some "&quot;"
    else None).

Definition isVoid (tag : string) : bool :=
  bool_decide (tag ∈ ["area"; "base"; "br"; "col"; "embed"; "hr"; "img"; "input";
                      "link"; "meta"; "source"; "track"; "wbr"]).

Fixpoint serializeAttributes (attrs : list (string * string)) (rest : string) : string :=
  match attrs with
  | [] => rest
  | (n, v) :: attrs' =>
      " " +:+ n +:+ "=" +:+ dquote +:+ escapeAttribute v +:+ dquote
      +:+ serializeAttributes attrs' rest
  end.

Fixpoint serializeNode (n : Node) : string :=
  match n with
  | Text d => escapeText d
  | Element t attrs cs =>
      "<" +:+ t +:+
      serializeAttributes attrs
        (">" +:+
         (if isVoid t then ""
          else
            (fix go (l : list Node) : string :=
               match l with
               | [] => ""
               | c :: l' => serializeNode c +:+ go l'
               end) cs
            +:+ "</" +:+ t +:+ ">"))
  end.

(** ** The reconstruction as the specification words it *)

(** One step of the walk over the blocks: the markup [m] of a block of
    indent [d] is wrapped as a list item when [wraps d]; [sunk] copies of
    the opening tag come before it when [sunk] is positive, [|sunk|] copies
    of the closing tag when it is negative, nothing when it is zero; the
    result is appended and [d] remembered. *)
Definition walkStep (wraps : Z -> bool) (acc : Acc) (dm : Z * string) : Acc :=
  let d := fst dm in
  let m := snd dm in
  let m := if wraps d then "<li>" +:+ m +:+ "</li>" else m in
  let sunk := (d - lastIndentation acc)%Z in
  let m :=
    match (sunk ?= 0)%Z with
    | Gt => repeatN "<ul>" (Z.abs_nat sunk) +:+ m
    | Lt => repeatN "</ul>" (Z.abs_nat sunk) +:+ m
    | Eq => m
    end in
  {| lastIndentation := d; html := html acc +:+ m |}.

Definition walk (wraps : Z -> bool) (dms : list (Z * string)) : Acc :=
  fold_left (walkStep wraps) dms {| lastIndentation := 0; html := "" |}.

(** The walk of the specification: a block is wrapped when its indent is
    positive. *)
Definition buildNestedMarkup (dms : list (Z * string)) : string :=
  html (walk (fun d => (0 <? d)%Z) dms).

(** The indent of a block and the markup of its element, when the element
    map has one. *)
Definition indentAndMarkup (outerHTML : Node -> string) (elementMap : gmap string Node)
    (block : ContentBlock) : option (Z * string) :=
  match elementMap !! getKey block with
  | Some element => Some (getIndent block, outerHTML element)
  | None => None
  end.

(** ** Counting tags in markup *)

(** Whether [s] starts with [pat]. *)
Fixpoint startsWith (pat s : string) : bool :=
  match pat with
  | EmptyString => true
  | String p pat' =>
      match s with
      | EmptyString => false
      | String c s' => Ascii.eqb p c && startsWith pat' s'
      end
  end.

(** The number of places of [s] at which [pat] starts. *)
Fixpoint countOccurrences (pat s : string) : nat :=
  match s with
  | EmptyString => 0
  | String c s' =>
      ((if startsWith pat s then 1 else 0) + countOccurrences pat s')%nat
  end.

(** Whether [>] stands nowhere in [pat] but, possibly, at its end. *)
Fixpoint gtOnlyLast (pat : string) : bool :=
  match pat with
  | EmptyString => true
  | String p EmptyString => true
  | String p pat' => negb (Ascii.eqb p ">") && gtOnlyLast pat'
  end.

(** Whether the last character of [s] is [>]; every tag ends so. *)
Fixpoint endsWithGt (s : string) : bool :=
  match s with
  | EmptyString => false
  | String c EmptyString => Ascii.eqb c ">"
  | String _ s' => endsWithGt s'
  end.

(** Opening list tags not yet closed: occurrences of the opening tag less
    those of the closing tag. *)
Definition unclosedLists (s : string) : Z :=
  (Z.of_nat (countOccurrences "<ul>" s) - Z.of_nat (countOccurrences "</ul>" s))%Z.

(** Markup that can stand for a block: it ends a tag and closes every list
    it opens. *)
Definition balancedMarkup (m : string) : bool :=
  endsWithGt m && bool_decide (unclosedLists m = 0%Z).


(** A string after which a tag can only start afresh: empty, or ending a
    tag. *)
Definition closedEnd (s : string) : Prop := s = "" \/ endsWithGt s = true.

(** A block whose element is in the map, with balanced markup. *)
Definition renderable (outerHTML : Node -> string) (elementMap : gmap string Node)
    (block : ContentBlock) : bool :=
  match elementMap !! getKey block with
  | Some element => balancedMarkup (outerHTML element)
  | None => false
  end.

Definition joinAll (pieces : list string) : string := fold_right append "" pieces.

(** ** Values and worlds the handlers go through *)

(** [fragmentElt] once the contents of the range are in it and its two
    attributes are set. *)
Definition fragmentEltOf (serialisedContent : string) (contents : list Node) : Node :=
  setAttribute "style" "white-space: pre-wrap;"
    (setAttribute "data-editor-content" serialisedContent
       (appendChild (createElement "div") contents)).

(** [el]: the clone of [fragmentElt], deep or not, without its descendants
    that are not editable. *)
Definition clonedSelection (deep : bool) (serialisedContent : string)
    (contents : list Node) : Node :=
  removeAll matchesNotEditable (cloneNode deep (fragmentEltOf serialisedContent contents)).

(** [outputElement] once the reconstructed markup is assigned to it. *)
Definition outputElementOf (parseHTML : string -> list Node) (serialisedContent : string)
    (markup : string) : Node :=
  setInnerHTML parseHTML
    (setAttribute "data-editor-content" serialisedContent (createElement "div")) markup.

(** The element map the handlers build from the fragment, the live
    document and the captured selection. *)
Definition elementMapOf (serialise : ContentState -> string)
    (parseHTML : string -> list Node) (editorState : EditorState)
    (selection : SelectionState) (fragment : BlockMap) (contents : list Node)
  : gmap string Node :=
  blockKeyToElementMapOf parseHTML fragment
    (keyMapOf (selectedBlockKeysOf editorState selection) (keySeq fragment))
    (clonedSelection true (serialise (createFromBlockArray (toArray fragment))) contents).

(** The world after [e.preventDefault()] and nothing else. *)
Definition preventedWorld (w : World) : World :=
  {| editor := editor w;
     event :=
       {| target := target (event w);
          clipboardData := clipboardData (event w);
          defaultPrevented := true |};
     domSelection := domSelection w;
     timers := timers w;
     log := (log w ++ [PreventDefault])%list |}.

(** The world after [editor.setClipboard(fragment)]. *)
Definition cachedWorld (w : World) (fragment : option BlockMap) : World :=
  {| editor :=
       {| _latestEditorState := _latestEditorState (editor w);
          _clipboard := fragment;
          mode := mode (editor w) |};
     event := event w;
     domSelection := domSelection w;
     timers := timers w;
     log := (log w ++ [SetClipboard fragment])%list |}.

(** The world after [editor.setClipboard(fragment)], [editor.setMode('cut')]
    and [setTimeout(callback, 0)]. *)
Definition cutWorld (w : World) (fragment : option BlockMap) (callback : Callback)
  : World :=
  {| editor :=
       {| _latestEditorState := _latestEditorState (editor w);
          _clipboard := fragment;
          mode := "cut" |};
     event := event w;
     domSelection := domSelection w;
     timers := (timers w ++ [callback])%list;
     log := (log w ++ [SetClipboard fragment; SetMode "cut"])%list |}.

(** [scrollPosition] in [editOnCut]: the scroll position of the target's
    scroll parent when the target is a node, [undefined] otherwise. *)
Definition scrollPositionOf (getScrollPosition : Node -> ScrollPosition) (w : World)
  : option ScrollPosition :=
  match target (event w) with
  | Some node => Some (getScrollPosition node)
  | None => None
  end.

(** The function [editOnCut] leaves in the timer queue: it closes over the
    scroll position read when the event fired, if its target was a node,
    and over the editor state read when the event fired. *)
Definition recoveryOf (getScrollPosition : Node -> ScrollPosition) (w : World)
  : Callback :=
  CutRecovery (scrollPositionOf getScrollPosition w) (_latestEditorState (editor w)).

(** The world after the clipboard of the event has taken the plain text and,
    one after the other, two payloads of markup, and the default action has
    been prevented. *)
Definition populatedWorld (w : World) (items : gmap string string)
    (plain html1 html2 : string) : World :=
  {| editor := editor w;
     event :=
       {| target := target (event w);
          clipboardData :=
            Some (<["text/html" := html2]>
                    (<["text/html" := html1]> (<["text/plain" := plain]> items)));
          defaultPrevented := true |};
     domSelection := domSelection w;
     timers := timers w;
     log := (log w ++ [SetData "text/plain" plain; SetData "text/html" html1;
                       SetData "text/html" html2; PreventDefault])%list |}.

(** The world after the single payload of markup of the build that does not
    reconstruct. *)
Definition populatedWorld_part001 (w : World) (items : gmap string string)
    (plain html1 : string) : World :=
  {| editor := editor w;
     event :=
       {| target := target (event w);
          clipboardData := Some (<["text/html" := html1]> (<["text/plain" := plain]> items));
          defaultPrevented := true |};
     domSelection := domSelection w;
     timers := timers w;
     log := (log w ++ [SetData "text/plain" plain; SetData "text/html" html1;
                       PreventDefault])%list |}.

(** The world after the function [editOnCut] left in the timer queue has
    run. *)
Definition recoveredWorld (w : World) (scrollPosition : option ScrollPosition)
    (newState : EditorState) : World :=
  {| editor :=
       {| _latestEditorState := newState;
          _clipboard := _clipboard (editor w);
          mode := "edit" |};
     event := event w;
     domSelection := domSelection w;
     timers := timers w;
     log := (log w ++ [RestoreEditorDOM scrollPosition; ExitCurrentMode;
                       Update newState])%list |}.


(** The markup the clipboard of the event holds, if any. *)
Definition htmlPayload (w : World) : option string :=
  match clipboardData (event w) with
  | Some items => items !! "text/html"
  | None => None
  end.

(** The plain text the clipboard of the event holds, if any. *)
Definition plainPayload (w : World) : option string :=
  match clipboardData (event w) with
  | Some items => items !! "text/plain"
  | None => None
  end.

(** Whether a call is one of the three the deferred step of a cut makes. *)
Definition isRecoveryCall (c : Call) : bool :=
  match c with
  | RestoreEditorDOM _ | ExitCurrentMode | Update _ => true
  | _ => false
  end.

(** A handler that prevents the default action and does nothing else: it
    returns, the editor (its state, its clipboard cache and its mode), the
    clipboard of the event and the timer queue are as they were, and the
    one call it made is [preventDefault]. *)
Definition onlyPreventsDefault (handler : Js unit) (w : World) : Prop :=
  exists w',
    handler w = (Normal tt, w')
    /\ editor w' = editor w
    /\ clipboardData (event w') = clipboardData (event w)
    /\ defaultPrevented (event w') = true
    /\ timers w' = timers w
    /\ log w' = (log w ++ [PreventDefault])%list.

(** ** A parser of markup *)

Inductive Token : Type :=
| StartTag (tag : string) (attrs : list (string * string))
| EndTag (tag : string)
| Characters (data : string).

Definition snoc (s : string) (c : ascii) : string := s +:+ String c EmptyString.

(** The attributes written after the name of a start tag, each as
    [name="value"]: [name] is the name read so far, [value] the value read
    so far once inside the quotes. *)
Fixpoint scanAttributes (s : string) (name : string) (value : option string)
  : list (string * string) :=
  match s with
  | EmptyString => []
  | String c s' =>
      match value with
      | Some v =>
          if Ascii.eqb c (ascii_of_nat 34) then (name, v) :: scanAttributes s' "" None
          else scanAttributes s' name (Some (snoc v c))
      | None =>
          if Ascii.eqb c (ascii_of_nat 34) then scanAttributes s' name (Some "")
          else if Ascii.eqb c " " || Ascii.eqb c "=" then scanAttributes s' name None
          else scanAttributes s' (snoc name c) None
      end
  end.

(** The name of a tag and what follows it. *)
Fixpoint splitName (s : string) (name : string) : string * string :=
  match s with
  | EmptyString => (name, "")
  | String c s' => if Ascii.eqb c " " then (name, s') else splitName s' (snoc name c)
  end.

Definition tagToken (body : string) : Token :=
  match body with
  | String "/" name => EndTag name
  | _ => let (name, rest) := splitName body "" in StartTag name (scanAttributes rest "" None)
  end.

Definition charactersToken (data : string) : list Token :=
  match data with
  | EmptyString => []
  | _ => [Characters data]
  end.

(** The tokens of a markup string: [tag] is the tag being read, when inside
    one, with whether a quoted value is open; [data] is the text read so
    far. *)
Fixpoint tokenize (s : string) (tag : option (string * bool)) (data : string)
  : list Token :=
  match s with
  | EmptyString => charactersToken data
  | String c s' =>
      match tag with
      | Some (body, quoted) =>
          if Ascii.eqb c (ascii_of_nat 34) then tokenize s' (Some (snoc body c, negb quoted)) data
          else if Ascii.eqb c ">" && negb quoted then tagToken body :: tokenize s' None ""
          else tokenize s' (Some (snoc body c, quoted)) data
      | None =>
          if Ascii.eqb c "<" then (charactersToken data ++ tokenize s' (Some ("", false)) "")%list
          else tokenize s' None (snoc data c)
      end
  end.

(** An element still open: its tag, its attributes and its children so
    far. *)
Definition OpenElement : Type := (string * list (string * string) * list Node)%type.

Definition addChild (n : Node) (stack : list OpenElement) (top : list Node)
  : list OpenElement * list Node :=
  match stack with
  | [] => ([], (top ++ [n])%list)
  | (t, attrs, cs) :: stack' => ((t, attrs, (cs ++ [n])%list) :: stack', top)
  end.

(** Closing the innermost open elements down to the first of tag [tag];
    [pending] is the element just closed, to be added to the next one. *)
Fixpoint closeTo (tag : string) (stack : list OpenElement) (pending : list Node)
    (top : list Node) : list OpenElement * list Node :=
  match stack with
  | [] => ([], (top ++ pending)%list)
  | (t, attrs, cs) :: stack' =>
      let element := Element t attrs (cs ++ pending)%list in
      if bool_decide (t = tag) then addChild element stack' top
      else closeTo tag stack' [element] top
  end.

(** At the end of the markup every element still open is closed. *)
Fixpoint closeAll (stack : list OpenElement) (pending : list Node) (top : list Node)
  : list Node :=
  match stack with
  | [] => (top ++ pending)%list
  | (t, attrs, cs) :: stack' => closeAll stack' [Element t attrs (cs ++ pending)%list] top
  end.

Fixpoint buildTree (tokens : list Token) (stack : list OpenElement) (top : list Node)
  : list Node :=
  match tokens with
  | [] => closeAll stack [] top
  | Characters d :: rest =>
      let (stack', top') := addChild (Text d) stack top in buildTree rest stack' top'
  | StartTag t attrs :: rest =>
      if isVoid t then
        let (stack', top') := addChild (Element t attrs []) stack top in
        buildTree rest stack' top'
      else buildTree rest ((t, attrs, []) :: stack) top
  | EndTag t :: rest =>
      if existsb (fun o => bool_decide (fst (fst o) = t)) stack then
        let (stack', top') := closeTo t stack [] top in buildTree rest stack' top'
      else buildTree rest stack top
  end.

(** A parser for the markup the serialiser writes: text, start tags with
    quoted attributes and end tags. An end tag closes the innermost open
    element of its name and what is open inside it, and is dropped when no
    such element is open; what is still open at the end is closed there.
    Character references are kept as they are written. *)
Definition parseMarkup (s : string) : list Node := buildTree (tokenize s None "") [] [].

(** ** Concrete documents, fragments and worlds *)

(** Closing a decidable goal on concrete data by evaluation. *)
Ltac decided := apply (bool_decide_unpack _); vm_compute; exact I.

(** The element a block renders to: a [div] that carries the block's offset
    key around the text. *)
Definition renderedBlock (k t : string) : Node :=
  Element "div" [("data-block", "true"); ("data-offset-key", k +:+ "-0-0")] [Text t].

Definition plainDiv (t : string) : Node := Element "div" [] [Text t].

Definition blockA (d : option Z) : ContentBlock :=
  {| getKey := "a"; getText := "one"; dataIndent := d |}.

Definition blockB (d : option Z) : ContentBlock :=
  {| getKey := "b"; getText := "two"; dataIndent := d |}.

Definition elementsAB : gmap string Node :=
  <["b" := plainDiv "two"]> (<["a" := plainDiv "one"]> ∅).

Definition liveBlock (k : string) : ContentBlock :=
  {| getKey := k; getText := "text of " +:+ k; dataIndent := None |}.

Definition selectionQR : SelectionState :=
  {| getStartKey := "q"; getStartOffset := 1; getEndKey := "r"; getEndOffset := 2;
     isCollapsed := false |}.

Definition caretInQ : SelectionState :=
  {| getStartKey := "q"; getStartOffset := 1; getEndKey := "q"; getEndOffset := 1;
     isCollapsed := true |}.

Definition liveContent : ContentState :=
  {| getBlockMap := [liveBlock "p"; liveBlock "q"; liveBlock "r"; liveBlock "s"] |}.

Definition liveDocument : EditorState :=
  {| getCurrentContent := liveContent; getSelection := selectionQR |}.

Definition liveDocumentCollapsed : EditorState :=
  {| getCurrentContent := liveContent; getSelection := caretInQ |}.

Definition fragmentAB : BlockMap := [blockA None; blockB (Some 2%Z)].

(** Stand-ins for what the handlers call and the source files do not
    define. *)
Definition fragmentOf (editorState : EditorState) : option BlockMap :=
  if isCollapsed (getSelection editorState) then None else Some fragmentAB.

Definition serialiseKeys (content : ContentState) : string :=
  "[" +:+ joinAll (keySeq (getBlockMap content)) +:+ "]".

Definition removeSelected (content : ContentState) (selection : SelectionState)
    (direction : RemovalDirection) : ContentState :=
  {| getBlockMap :=
       filter (fun b => getKey b ∉
                 selectedBlockKeysOf {| getCurrentContent := content;
                                        getSelection := selection |} selection)
         (getBlockMap content) |}.

Definition pushContent (editorState : EditorState) (content : ContentState)
    (changeType : EditorChangeType) : EditorState :=
  {| getCurrentContent := content;
     getSelection :=
       {| getStartKey := getStartKey (getSelection editorState);
          getStartOffset := getStartOffset (getSelection editorState);
          getEndKey := getStartKey (getSelection editorState);
          getEndOffset := getStartOffset (getSelection editorState);
          isCollapsed := true |} |}.

Definition scrollOrigin (element : Node) : ScrollPosition := (0%Z, 0%Z).

(** The selection as the editor paints it: the block [q] whole, the block
    [r] without an element of its own. *)
Definition paintedSelection : list Node :=
  [renderedBlock "q" "text of q";
   Element "span" [("contenteditable", "false")] [Text "handle"];
   Text "text of r"].

(** A world in which the selection runs from block [q] to block [r]; the
    event has a clipboard when [items] is given. *)
Definition selectedWorld (items : option (gmap string string)) : World :=
  {| editor := {| _latestEditorState := liveDocument; _clipboard := None; mode := "edit" |};
     event := {| target := Some (plainDiv "editor"); clipboardData := items;
                 defaultPrevented := false |};
     domSelection := {| rangeContents := Some paintedSelection;
                        selectionText := "text of qtext of r" |};
     timers := [];
     log := [] |}.

(** A world in which the selection is collapsed. *)
Definition collapsedWorld : World :=
  {| editor := {| _latestEditorState := liveDocumentCollapsed;
                  _clipboard := Some fragmentAB; mode := "edit" |};
     event := {| target := Some (plainDiv "editor"); clipboardData := Some ∅;
                 defaultPrevented := false |};
     domSelection := {| rangeContents := None; selectionText := "" |};
     timers := [];
     log := [] |}.

(** ** The helpers of the compiled builds *)

(** [key in obj] for an object literal: the object has the property itself
    or inherits it from [Object.prototype]. *)
Definition hasProperty {V : Type} (obj : gmap string V) (key : string) : bool :=
  bool_decide (is_Some (obj !! key)) || bool_decide (is_Some (getAttr key objectPrototype)).

(** [obj[key] = value] for an object literal and a value that is a string:
    an own property takes the value; without one, the name [__proto__]
    reaches the setter that [Object.prototype] has for it, which ignores a
    value that is not an object, and any other name becomes an own
    property. *)
Definition assignProperty (obj : gmap string string) (key value : string)
  : gmap string string :=
  match obj !! key with
  | Some _ => <[key := value]> obj
  | None => if bool_decide (key = "__proto__") then obj else <[key := value]> obj
  end.

(** [_defineProperty(obj, key, value)], [lib/editOnCopy.js] line 19: a key
    the object has, own or inherited, is defined as an own property; a key
    it does not have is assigned. *)
Definition _defineProperty (obj : gmap string string) (key value : string)
  : gmap string string :=
  if hasProperty obj key then <[key := value]> obj else assignProperty obj key value.

(** [_extends(target, source1, ...)], [lib/editOnCopy.js] line 17: every own
    property of every source, in the order of the arguments, is assigned to
    the target. *)
Definition _extends (target : gmap string string) (sources : list (gmap string string))
  : gmap string string :=
  fold_left
    (fun target source =>
       map_fold (fun key value t => assignProperty t key value) target source)
    sources target.

(** [keyMap] as the compiled builds write it:
    [_extends({}, acc, _defineProperty({}, fragmentKeys[index], item))]. *)
Definition keyMapOf_compiled (selectedBlockKeys fragmentKeys : list string)
  : gmap string string :=
  reduceIndexed
    (fun acc item index =>
       _extends ∅ [acc; _defineProperty ∅ (toPropertyKey (fragmentKeys !! index)) item])
    selectedBlockKeys 0 ∅.

(** ** The guarded block of the handlers *)

(** What [editOnCopy] and [editOnCut] do after the cache is filled (and, for
    a cut, the mode entered and the recovery left in the queue): the
    clipboard of the event is filled when there is one and the fragment is
    not [null]. *)
Definition writePayload (serialise : ContentState -> string)
    (outerHTML : Node -> string) (parseHTML : string -> list Node)
    (editorState : EditorState) (fragment : option BlockMap) : Js unit :=
  fun w =>
    match clipboardData (event w), fragment with
    | Some _, Some blocks =>
        populateClipboardData serialise outerHTML parseHTML editorState
          (getSelection editorState) blocks w
    | _, _ => (Normal tt, w)
    end.

(** The item the clipboard of the event holds for a format, if any. *)
Definition clipboardItem (format : string) (w : World) : option string :=
  match clipboardData (event w) with
  | Some items => items !! format
  | None => None
  end.

(** ** Counting list items *)

(** Markup that ends a tag and has no list item tag of its own. *)
Definition itemFreeMarkup (m : string) : bool :=
  endsWithGt m
  && Nat.eqb (countOccurrences "<li>" m) 0
  && Nat.eqb (countOccurrences "</li>" m) 0.

(** A block whose element is in the map, with markup free of list items. *)
Definition itemFree (outerHTML : Node -> string) (elementMap : gmap string Node)
    (block : ContentBlock) : bool :=
  match elementMap !! getKey block with
  | Some element => itemFreeMarkup (outerHTML element)
  | None => false
  end.

(** The blocks the reconstruction wraps as list items. *)
Definition wrappedBlocks (blocks : list ContentBlock) : nat :=
  length (List.filter (fun b => truthy (getIndent b)) blocks).

(** ** Nodes and their descendants *)

(** [node.childNodes] *)
Definition childrenOf (n : Node) : list Node :=
  match n with
  | Text _ => []
  | Element _ _ cs => cs
  end.

(** A selector that looks at the attributes of an element only, as the
    attribute selectors of the handlers do. *)
Definition attributeSelector (sel : Node -> bool) : Prop :=
  forall t attrs cs cs', sel (Element t attrs cs) = sel (Element t attrs cs').


(** ** A selection without a range *)

(** A world as [selectedWorld], but the selection of the window has no
    range. *)
Definition rangelessWorld (items : option (gmap string string)) : World :=
  {| editor := {| _latestEditorState := liveDocument; _clipboard := None; mode := "edit" |};
     event := {| target := Some (plainDiv "editor"); clipboardData := items;
                 defaultPrevented := false |};
     domSelection := {| rangeContents := None; selectionText := "" |};
     timers := [];
     log := [] |}.

(** ** Markup that reads back as it was written *)





Fixpoint allChars (p : ascii -> bool) (s : string) : bool :=
  match s with
  | EmptyString => true
  | String c s' => p c && allChars p s'
  end.








(** ** The fallback element *)

(** Text the parser reads as one text node with the same characters: no tag
    opener and no character reference in it, and none of the characters
    the parser's input stream replaces or drops (carriage return, NUL). *)
Definition markupFree (s : string) : bool :=
  allChars (fun c => negb (Ascii.eqb c "<" || Ascii.eqb c "&"
                           || Ascii.eqb c (ascii_of_nat 13)
                           || Ascii.eqb c (ascii_of_nat 0))) s.

(** The nodes that hold a text as it stands: one text node, none for the
    empty string. *)
Definition textNodes (s : string) : list Node :=
  match s with
  | EmptyString => []
  | _ => [Text s]
  end.

(** A document whose block [q] has markup in its text, a selection inside
    that block, the fragment of that selection (a block of a new key with
    the selected text) and the contents of the range, a slice of the text
    node. *)
Definition markupContent : ContentState :=
  {| getBlockMap :=
       [liveBlock "p";
        {| getKey := "q"; getText := "use <b>bold</b> here"; dataIndent := None |}] |}.

Definition selectionInQ : SelectionState :=
  {| getStartKey := "q"; getStartOffset := 4; getEndKey := "q"; getEndOffset := 15;
     isCollapsed := false |}.

Definition markupDocument : EditorState :=
  {| getCurrentContent := markupContent; getSelection := selectionInQ |}.

Definition markupFragment : BlockMap :=
  [{| getKey := "m"; getText := "<b>bold</b>"; dataIndent := None |}].

Definition markupCapture : list Node := [Text "<b>bold</b>"].

Definition markupWorld : World :=
  {| editor := {| _latestEditorState := markupDocument; _clipboard := None;
                  mode := "edit" |};
     event := {| target := Some (plainDiv "editor"); clipboardData := Some ∅;
                 defaultPrevented := false |};
     domSelection := {| rangeContents := Some markupCapture;
                        selectionText := "<b>bold</b>" |};
     timers := [];
     log := [] |}.

(** ** The two builds of the copy handler *)

(** [element.tagName], in lower case. *)
Definition tagNameOf (n : Node) : option string :=
  match n with
  | Text _ => None
  | Element t _ _ => Some t
  end.

(** The root of a captured selection: a [div] that carries the serialised
    fragment and the style that keeps line breaks, with no descendant that
    is not editable. *)
Definition capturedRoot (serialisedContent : string) (n : Node) : Prop :=
  tagNameOf n = Some "div"
  /\ getAttribute "data-editor-content" n = Some serialisedContent
  /\ getAttribute "style" n = Some "white-space: pre-wrap;"
  /\ querySelector matchesNotEditable n = None.
(** * Properties *)

(** ** Strings *)

Lemma append_cons (c : ascii) (s t : string) : String c s +:+ t = String c (s +:+ t).
Proof. reflexivity. Qed.

Lemma append_nil_l (s : string) : "" +:+ s = s.
Proof. reflexivity. Qed.

Lemma append_nil_r (s : string) : s +:+ "" = s.
Proof. induction s as [|c s IH]; [reflexivity|]. rewrite append_cons, IH. reflexivity. Qed.

Lemma append_assoc (a b c : string) : (a +:+ b) +:+ c = a +:+ (b +:+ c).
Proof.
  induction a as [|x a IH]; [reflexivity|].
  rewrite !append_cons, IH. reflexivity.
Qed.

Lemma endsWithGt_cons (c : ascii) (s : string) :
  s <> "" -> endsWithGt (String c s) = endsWithGt s.
Proof. destruct s; [congruence | reflexivity]. Qed.

Lemma endsWithGt_app (a b : string) :
  endsWithGt b = true -> endsWithGt (a +:+ b) = true.
Proof.
  intros Hb. induction a as [|c a IH]; [exact Hb|].
  rewrite append_cons, endsWithGt_cons; [exact IH|].
  destruct a; [destruct b; [discriminate | rewrite append_nil_l; congruence]|].
  rewrite append_cons. congruence.
Qed.

Lemma closedEnd_app (a b : string) : closedEnd a -> closedEnd b -> closedEnd (a +:+ b).
Proof.
  intros Ha [-> | Hb]; [rewrite append_nil_r; exact Ha|].
  right. apply endsWithGt_app, Hb.
Qed.

Lemma closedEnd_tail (c : ascii) (s : string) : closedEnd (String c s) -> closedEnd s.
Proof.
  intros [H | H]; [discriminate|].
  destruct s as [|d s]; [left; reflexivity | right; exact H].
Qed.

(** A tag starts at the head of [a +:+ b] exactly when it starts at the
    head of [a], once [a] ends with [>]: a tag has no [>] before its last
    character. *)
Lemma startsWith_app (pat : string) :
  gtOnlyLast pat = true ->
  forall a b, endsWithGt a = true -> startsWith pat (a +:+ b) = startsWith pat a.
Proof.
  induction pat as [|p pat IH]; intros Hpat a b Ha; [reflexivity|].
  destruct a as [|c a]; [discriminate|].
  rewrite append_cons. cbn [startsWith].
  destruct a as [|d a].
  - cbn in Ha. apply Ascii.eqb_eq in Ha. subst c.
    destruct pat as [|q pat]; [reflexivity|].
    cbn [gtOnlyLast] in Hpat. apply andb_prop in Hpat as [Hp _].
    apply negb_true_iff in Hp. rewrite Hp. reflexivity.
  - f_equal. apply IH; [|exact Ha].
    destruct pat as [|q pat]; [reflexivity|].
    cbn [gtOnlyLast] in Hpat. apply andb_prop in Hpat as [_ Hq]. exact Hq.
Qed.

Lemma count_app (pat a b : string) :
  gtOnlyLast pat = true ->
  closedEnd a ->
  countOccurrences pat (a +:+ b) = (countOccurrences pat a + countOccurrences pat b)%nat.
Proof.
  intros Hpat. induction a as [|c a IH]; intros Ha; [reflexivity|].
  destruct Ha as [Ha | Ha]; [discriminate|].
  rewrite append_cons. cbn [countOccurrences].
  rewrite <- append_cons, (startsWith_app pat Hpat _ _ Ha), IH.
  - lia.
  - apply (closedEnd_tail c). right. exact Ha.
Qed.

Lemma unclosedLists_app (a b : string) :
  closedEnd a -> unclosedLists (a +:+ b) = (unclosedLists a + unclosedLists b)%Z.
Proof.
  intros Ha. unfold unclosedLists.
  rewrite (count_app "<ul>" a b eq_refl Ha), (count_app "</ul>" a b eq_refl Ha). lia.
Qed.

(** ** The nested-list reconstructor *)

Section ReconstructorFacts.

Variable outerHTML : Node -> string.
Variable content : ContentState.
Variable elementMap : gmap string Node.

(** The callback of the reduction is one step of the walk that wraps a
    block when its indent is not zero. *)
Lemma reduceBlock_walkStep (acc : Acc) (item : ContentBlock) :
  reduceBlock outerHTML content elementMap acc item =
    match indentAndMarkup outerHTML elementMap item with
    | Some dm => Normal (walkStep truthy acc dm)
    | None => Throw TypeError
    end.
Proof.
  unfold reduceBlock, indentAndMarkup.
  destruct (elementMap !! getKey item) as [element|]; [|reflexivity].
  f_equal. unfold walkStep, String_repeat. cbn [fst snd].
  set (sunk := (getIndent item - lastIndentation acc)%Z).
  destruct (Z.compare_spec sunk 0) as [H | H | H].
  - rewrite H. reflexivity.
  - destruct (Z.ltb_spec 0 sunk); [lia|]. destruct (Z.ltb_spec sunk 0); [|lia].
    replace (Z.to_nat (- sunk)) with (Z.abs_nat sunk) by lia. reflexivity.
  - destruct (Z.ltb_spec 0 sunk); [|lia]. destruct (Z.ltb_spec sunk 0); [lia|].
    replace (Z.to_nat sunk) with (Z.abs_nat sunk) by lia. reflexivity.
Qed.

Lemma reduce_walk (blocks : list ContentBlock) (acc : Acc) :
  reduce (reduceBlock outerHTML content elementMap) blocks acc =
    match mapM (indentAndMarkup outerHTML elementMap) blocks with
    | Some dms => Normal (fold_left (walkStep truthy) dms acc)
    | None => Throw TypeError
    end.
Proof.
  revert acc. induction blocks as [|b blocks IH]; intros acc; [reflexivity|].
  cbn [reduce]. rewrite reduceBlock_walkStep. cbn.
  destruct (indentAndMarkup outerHTML elementMap b) as [dm|]; [|reflexivity].
  rewrite IH. cbn.
  destruct (mapM (indentAndMarkup outerHTML elementMap) blocks); reflexivity.
Qed.

Lemma reduce_app (l1 l2 : list ContentBlock) (acc : Acc) :
  reduce (reduceBlock outerHTML content elementMap) (l1 ++ l2) acc =
    match reduce (reduceBlock outerHTML content elementMap) l1 acc with
    | Normal acc' => reduce (reduceBlock outerHTML content elementMap) l2 acc'
    | Throw err => Throw err
    end.
Proof.
  revert acc. induction l1 as [|b l1 IH]; intros acc; [reflexivity|].
  cbn [reduce app].
  destruct (reduceBlock outerHTML content elementMap acc b); [apply IH | reflexivity].
Qed.

End ReconstructorFacts.

Lemma indentAndMarkup_fst (outerHTML : Node -> string) (elementMap : gmap string Node)
    (block : ContentBlock) (dm : Z * string) :
  indentAndMarkup outerHTML elementMap block = Some dm -> fst dm = getIndent block.
Proof.
  unfold indentAndMarkup. destruct (elementMap !! getKey block); [|discriminate].
  intros H. injection H as H. subst dm. reflexivity.
Qed.

Lemma mapM_indents (outerHTML : Node -> string) (elementMap : gmap string Node)
    (blocks : list ContentBlock) (dms : list (Z * string)) :
  mapM (indentAndMarkup outerHTML elementMap) blocks = Some dms ->
  map fst dms = map getIndent blocks.
Proof.
  revert dms. induction blocks as [|b blocks IH]; intros dms H.
  - cbn in H. unfold mret, option_ret in H. simplify_eq. reflexivity.
  - cbn in H.
    destruct (indentAndMarkup outerHTML elementMap b) as [dm|] eqn:E;
      cbn in H; [|discriminate].
    destruct (mapM (indentAndMarkup outerHTML elementMap) blocks) as [k|];
      cbn in H; [|discriminate].
    unfold mret, option_ret in H. simplify_eq.
    cbn. f_equal; [eapply indentAndMarkup_fst, E | apply IH; reflexivity].
Qed.

(** On indents that are not negative, "not zero" and "positive" wrap the
    same blocks. *)
Lemma walk_nonnegative (dms : list (Z * string)) (acc : Acc) :
  Forall (fun d => (0 <= d)%Z) (map fst dms) ->
  fold_left (walkStep truthy) dms acc = fold_left (walkStep (fun d => (0 <? d)%Z)) dms acc.
Proof.
  revert acc. induction dms as [|[d m] dms IH]; intros acc H; [reflexivity|].
  cbn [map fst] in H. apply Forall_cons in H as [Hd H]. cbn [fold_left].
  rewrite IH by exact H. f_equal.
  unfold walkStep, truthy. cbn [fst snd].
  destruct (Z.eqb_spec d 0), (Z.ltb_spec 0 d); cbn; try reflexivity; lia.
Qed.

(** Blocks that are all at indent 0 are neither wrapped nor prefixed. *)
Lemma walk_flat (wraps : Z -> bool) (dms : list (Z * string)) (acc : Acc) :
  wraps 0%Z = false ->
  lastIndentation acc = 0%Z ->
  Forall (fun d => d = 0%Z) (map fst dms) ->
  fold_left (walkStep wraps) dms acc =
    {| lastIndentation := 0; html := html acc +:+ joinAll (map snd dms) |}.
Proof.
  intros Hw. revert acc. induction dms as [|[d m] dms IH]; intros acc Hacc H.
  - cbn. rewrite append_nil_r. destruct acc; cbn in *; subst; reflexivity.
  - cbn [map fst] in H. apply Forall_cons in H as [-> H]. cbn [fold_left].
    rewrite IH; [|reflexivity|exact H].
    unfold walkStep. cbn [fst snd html map joinAll fold_right].
    rewrite Hw, Hacc. cbn. rewrite append_assoc. reflexivity.
Qed.

(** C1 (as amended): for every fragment and every element map, the
    reduction of the nested-list reconstructor is the walk that starts from
    indentation 0 and the empty string and, for each block of indent [d]
    and element markup [m], wraps [m] as a list item exactly when [d] is not
    zero, puts [d - lastIndentation] opening tags before it when that is
    positive and as many closing tags as its absolute value when it is
    negative, appends the result and remembers [d] (a [TypeError] when a
    block has no element). When no indent is negative this is the walk that
    wraps exactly when [d > 0]; when every indent is 0 the result is the
    markup of the blocks, in order, and nothing else. *)
Theorem inner_is_walk (outerHTML : Node -> string) (content : ContentState)
    (elementMap : gmap string Node) :
  inner outerHTML content elementMap =
    match mapM (indentAndMarkup outerHTML elementMap) (getBlocksAsArray content) with
    | Some dms => Normal (walk truthy dms)
    | None => Throw TypeError
    end
  /\ (forall dms,
        mapM (indentAndMarkup outerHTML elementMap) (getBlocksAsArray content) = Some dms ->
        Forall (fun b => (0 <= getIndent b)%Z) (getBlocksAsArray content) ->
        inner outerHTML content elementMap = Normal (walk (fun d => (0 <? d)%Z) dms))
  /\ (forall dms,
        mapM (indentAndMarkup outerHTML elementMap) (getBlocksAsArray content) = Some dms ->
        Forall (fun b => getIndent b = 0%Z) (getBlocksAsArray content) ->
        inner outerHTML content elementMap =
          Normal {| lastIndentation := 0; html := joinAll (map snd dms) |}).
Proof.
  unfold inner. rewrite reduce_walk. split; [reflexivity|].
  split; intros dms Hdms Hall; rewrite Hdms; f_equal; unfold walk.
  - apply walk_nonnegative. rewrite (mapM_indents _ _ _ _ Hdms).
    apply Forall_map. exact Hall.
  - rewrite (walk_flat truthy dms {| lastIndentation := 0; html := "" |} eq_refl eq_refl);
      [reflexivity|].
    rewrite (mapM_indents _ _ _ _ Hdms). apply Forall_map. exact Hall.
Qed.

Lemma inner_is_walk_witness :
  Forall (fun b => getIndent b = 0%Z)
    (getBlocksAsArray {| getBlockMap := [blockA None; blockB (Some 0%Z)] |})
  /\ inner serializeNode {| getBlockMap := [blockA None; blockB (Some 0%Z)] |} elementsAB =
       Normal {| lastIndentation := 0; html := "<div>one</div><div>two</div>" |}.
Proof.
  assert (H : Forall (fun b => getIndent b = 0%Z)
                (getBlocksAsArray {| getBlockMap := [blockA None; blockB (Some 0%Z)] |})).
  { repeat constructor. }
  split; [exact H|].
  exact (proj2 (proj2 (inner_is_walk serializeNode
                         {| getBlockMap := [blockA None; blockB (Some 0%Z)] |} elementsAB))
           [(0%Z, "<div>one</div>"); (0%Z, "<div>two</div>")] eq_refl H).
Defined.

(** A block of indent -1: the code wraps it as a list item, the walk that
    wraps only positive indents does not. *)
Lemma negative_indent_is_wrapped :
  inner serializeNode {| getBlockMap := [blockA (Some (-1)%Z)] |} elementsAB =
    Normal {| lastIndentation := -1; html := "</ul><li><div>one</div></li>" |}
  /\ buildNestedMarkup [((-1)%Z, serializeNode (plainDiv "one"))] = "</ul><div>one</div>"
  /\ inner serializeNode {| getBlockMap := [blockA (Some (-1)%Z)] |} elementsAB <>
       Normal (walk (fun d => (0 <? d)%Z) [((-1)%Z, serializeNode (plainDiv "one"))]).
Proof.
  split; [vm_compute; reflexivity|].
  split; [vm_compute; reflexivity|].
  vm_compute. discriminate.
Qed.


(** ** Open lists *)

Lemma repeat_open_tag (n : nat) :
  closedEnd (repeatN "<ul>" n) /\ unclosedLists (repeatN "<ul>" n) = Z.of_nat n.
Proof.
  induction n as [|n [IHc IHu]]; [split; [left|]; reflexivity|].
  cbn [repeatN]. split.
  - apply closedEnd_app; [right; reflexivity | exact IHc].
  - rewrite unclosedLists_app by (right; reflexivity). rewrite IHu.
    change (unclosedLists "<ul>") with 1%Z. lia.
Qed.

Lemma repeat_close_tag (n : nat) :
  closedEnd (repeatN "</ul>" n) /\ unclosedLists (repeatN "</ul>" n) = (- Z.of_nat n)%Z.
Proof.
  induction n as [|n [IHc IHu]]; [split; [left|]; reflexivity|].
  cbn [repeatN]. split.
  - apply closedEnd_app; [right; reflexivity | exact IHc].
  - rewrite unclosedLists_app by (right; reflexivity). rewrite IHu.
    change (unclosedLists "</ul>") with (-1)%Z. lia.
Qed.

Lemma wrapped_markup (wrap : bool) (m : string) :
  balancedMarkup m = true ->
  let item := if wrap then "<li>" +:+ m +:+ "</li>" else m in
  endsWithGt item = true /\ unclosedLists item = 0%Z.
Proof.
  unfold balancedMarkup. intros H. apply andb_prop in H as [Hgt Hbal].
  apply bool_decide_eq_true in Hbal. destruct wrap; cbn zeta; [|split; assumption].
  split.
  - apply endsWithGt_app, endsWithGt_app. reflexivity.
  - rewrite unclosedLists_app by (right; reflexivity).
    rewrite unclosedLists_app by (right; exact Hgt). rewrite Hbal. reflexivity.
Qed.

(** One step of the walk ends a tag and changes the number of open lists
    by the difference of the indents. *)
Lemma walkStep_balance (wraps : Z -> bool) (acc : Acc) (d : Z) (m : string) :
  closedEnd (html acc) ->
  balancedMarkup m = true ->
  closedEnd (html (walkStep wraps acc (d, m)))
  /\ unclosedLists (html (walkStep wraps acc (d, m))) =
       (unclosedLists (html acc) + (d - lastIndentation acc))%Z.
Proof.
  intros Hacc Hm. unfold walkStep. cbn [fst snd html].
  destruct (wrapped_markup (wraps d) m Hm) as [Hgt Hbal].
  set (item := if wraps d then "<li>" +:+ m +:+ "</li>" else m) in *.
  set (sunk := (d - lastIndentation acc)%Z).
  rewrite unclosedLists_app by exact Hacc.
  destruct (Z.compare_spec sunk 0) as [H | H | H].
  - split; [apply closedEnd_app; [exact Hacc | right; exact Hgt] | lia].
  - destruct (repeat_close_tag (Z.abs_nat sunk)) as [Hc Hu].
    split; [apply closedEnd_app; [exact Hacc | right; apply endsWithGt_app, Hgt]|].
    rewrite unclosedLists_app by exact Hc. lia.
  - destruct (repeat_open_tag (Z.abs_nat sunk)) as [Hc Hu].
    split; [apply closedEnd_app; [exact Hacc | right; apply endsWithGt_app, Hgt]|].
    rewrite unclosedLists_app by exact Hc. lia.
Qed.

Section OpenLists.

Variable outerHTML : Node -> string.
Variable content : ContentState.
Variable elementMap : gmap string Node.

Lemma reduceBlock_balance (acc : Acc) (b : ContentBlock) :
  closedEnd (html acc) ->
  unclosedLists (html acc) = lastIndentation acc ->
  renderable outerHTML elementMap b = true ->
  exists acc',
    reduceBlock outerHTML content elementMap acc b = Normal acc'
    /\ closedEnd (html acc')
    /\ unclosedLists (html acc') = lastIndentation acc'
    /\ lastIndentation acc' = getIndent b.
Proof.
  intros Hc Hu Hb. rewrite reduceBlock_walkStep.
  unfold renderable in Hb. unfold indentAndMarkup.
  destruct (elementMap !! getKey b) as [e|]; [|discriminate].
  destruct (walkStep_balance truthy acc (getIndent b) (outerHTML e) Hc Hb) as [Hc' Hu'].
  eexists. split; [reflexivity|]. split; [exact Hc'|]. split; [|reflexivity].
  rewrite Hu', Hu. cbn. lia.
Qed.

Lemma reduce_balance (blocks : list ContentBlock) (acc : Acc) :
  closedEnd (html acc) ->
  unclosedLists (html acc) = lastIndentation acc ->
  Forall (fun b => renderable outerHTML elementMap b = true) blocks ->
  exists acc',
    reduce (reduceBlock outerHTML content elementMap) blocks acc = Normal acc'
    /\ closedEnd (html acc')
    /\ unclosedLists (html acc') = lastIndentation acc'.
Proof.
  revert acc. induction blocks as [|b blocks IH]; intros acc Hc Hu Hall.
  - exists acc. repeat split; assumption.
  - apply Forall_cons in Hall as [Hb Hall].
    destruct (reduceBlock_balance acc b Hc Hu Hb) as (acc1 & Hstep & Hc1 & Hu1 & _).
    cbn [reduce]. rewrite Hstep. apply IH; assumption.
Qed.

End OpenLists.

(** C3: after each block of the reduction, whatever comes before or after
    it in the fragment, the opening list tags of the markup built so far
    less its closing list tags are as many as the block's indent (the
    blocks up to it having elements with balanced markup); the reduction
    goes on from there over the blocks that follow, so a fragment that ends
    with this block returns that markup as it stands, with as many lists
    open as the last indent. *)
Theorem unclosed_lists_follow_indent (outerHTML : Node -> string)
    (content : ContentState) (elementMap : gmap string Node)
    (pre : list ContentBlock) (b : ContentBlock) (post : list ContentBlock) :
  getBlocksAsArray content = (pre ++ b :: post)%list ->
  Forall (fun blk => renderable outerHTML elementMap blk = true) (pre ++ [b])%list ->
  exists acc,
    reduce (reduceBlock outerHTML content elementMap) (pre ++ [b])%list
      {| lastIndentation := 0; html := "" |} = Normal acc
    /\ lastIndentation acc = getIndent b
    /\ unclosedLists (html acc) = getIndent b
    /\ inner outerHTML content elementMap =
         reduce (reduceBlock outerHTML content elementMap) post acc.
Proof.
  intros Hblocks Hall. apply Forall_app in Hall as [Hpre Hb].
  apply Forall_cons in Hb as [Hb _].
  destruct (reduce_balance outerHTML content elementMap pre
              {| lastIndentation := 0; html := "" |})
    as (acc1 & Hred1 & Hc1 & Hu1); [left; reflexivity | reflexivity | exact Hpre |].
  destruct (reduceBlock_balance outerHTML content elementMap acc1 b Hc1 Hu1 Hb)
    as (acc & Hstep & Hc & Hu & Hlast).
  exists acc.
  assert (Hred : reduce (reduceBlock outerHTML content elementMap) (pre ++ [b])%list
                   {| lastIndentation := 0; html := "" |} = Normal acc).
  { rewrite reduce_app, Hred1. cbn [reduce]. rewrite Hstep. reflexivity. }
  split; [exact Hred|]. split; [exact Hlast|]. split; [congruence|].
  unfold inner. rewrite Hblocks.
  change (pre ++ b :: post)%list with (pre ++ [b] ++ post)%list.
  rewrite app_assoc, reduce_app, Hred. reflexivity.
Qed.

Lemma unclosed_lists_follow_indent_witness :
  exists acc,
    inner serializeNode {| getBlockMap := [blockA (Some 1%Z); blockB (Some 3%Z)] |}
      elementsAB = Normal acc
    /\ html acc = "<ul><li><div>one</div></li><ul><ul><li><div>two</div></li>"
    /\ unclosedLists (html acc) = 3%Z.
Proof.
  destruct (unclosed_lists_follow_indent serializeNode
              {| getBlockMap := [blockA (Some 1%Z); blockB (Some 3%Z)] |} elementsAB
              [blockA (Some 1%Z)] (blockB (Some 3%Z)) [] eq_refl)
    as (acc & Hred & _ & Hu & Hinner).
  - repeat constructor.
  - exists acc. split; [exact Hinner|]. split; [|exact Hu].
    vm_compute in Hred. injection Hred as <-. reflexivity.
Defined.

(** ** The block identity remapper *)

Lemma skipUntil_app {A : Type} (p : A -> bool) (before rest : list A) :
  Forall (fun x => p x = false) before ->
  skipUntil p (before ++ rest)%list = skipUntil p rest.
Proof.
  induction before as [|x before IH]; intros H; [reflexivity|].
  apply Forall_cons in H as [Hx H]. cbn. rewrite Hx. apply IH, H.
Qed.

Lemma takeUntil_app {A : Type} (p : A -> bool) (inside : list A) (x : A) (rest : list A) :
  Forall (fun y => p y = false) inside ->
  p x = true ->
  takeUntil p (inside ++ x :: rest)%list = inside.
Proof.
  intros H Hx. induction inside as [|y inside IH]; cbn.
  - rewrite Hx. reflexivity.
  - apply Forall_cons in H as [Hy H]. rewrite Hy, IH by exact H. reflexivity.
Qed.

(** The selected keys are the keys of the document from the first start key
    to the first end key from there on, both included. *)
Lemma selectedBlockKeys_range (editorState : EditorState) (selection : SelectionState)
    (before inside after : list string) :
  keySeq (getBlockMap (getCurrentContent editorState)) =
    (before ++ inside ++ getEndKey selection :: after)%list ->
  getStartKey selection ∉ before ->
  getEndKey selection ∉ inside ->
  (inside = [] /\ getStartKey selection = getEndKey selection
   \/ exists middle, inside = getStartKey selection :: middle) ->
  selectedBlockKeysOf editorState selection = (inside ++ [getEndKey selection])%list.
Proof.
  intros Hkeys Hstart Hend Hshape. unfold selectedBlockKeysOf. rewrite Hkeys.
  f_equal.
  rewrite skipUntil_app.
  2:{ apply Forall_forall. intros x Hx. apply bool_decide_eq_false.
      intros ->. apply Hstart, Hx. }
  assert (Hskip : skipUntil (fun item => bool_decide (item = getStartKey selection))
                    (inside ++ getEndKey selection :: after)%list
                  = (inside ++ getEndKey selection :: after)%list).
  { destruct Hshape as [[-> Heq] | [middle ->]]; cbn.
    - rewrite Heq, bool_decide_eq_true_2 by reflexivity. reflexivity.
    - rewrite bool_decide_eq_true_2 by reflexivity. reflexivity. }
  rewrite Hskip. apply takeUntil_app.
  - apply Forall_forall. intros x Hx. apply bool_decide_eq_false.
    intros ->. apply Hend, Hx.
  - apply bool_decide_eq_true_2. reflexivity.
Qed.

(** The reduction that builds [keyMap], started at index [n] over the live
    keys that are left: a fragment key at an index the reduction still
    visits takes the live key of that index, any other fragment key keeps
    what the accumulator holds. *)
Lemma keyMap_reduction (fragmentKeys : list string) :
  NoDup fragmentKeys ->
  forall (liveKeys : list string) (n : nat) (acc : gmap string string) (j : nat)
         (fragmentKey : string),
    (n + length liveKeys <= length fragmentKeys)%nat ->
    fragmentKeys !! j = Some fragmentKey ->
    reduceIndexed
      (fun acc item index => <[toPropertyKey (fragmentKeys !! index) := item]> acc)
      liveKeys n acc !! fragmentKey =
    if decide (n <= j)%nat then
      match liveKeys !! (j - n)%nat with
      | Some liveKey => Some liveKey
      | None => acc !! fragmentKey
      end
    else acc !! fragmentKey.
Proof.
  intros Hnodup. induction liveKeys as [|x liveKeys IH]; intros n acc j fk Hlen Hj.
  - cbn. destruct (decide (n <= j)%nat); reflexivity.
  - cbn [reduceIndexed]. cbn [length] in Hlen.
    destruct (lookup_lt_is_Some_2 fragmentKeys n ltac:(lia)) as [kn Hn].
    rewrite (IH (S n) _ j fk) by (assumption || lia).
    rewrite Hn. cbn [toPropertyKey default].
    assert (Hother : j <> n -> <[kn := x]> acc !! fk = acc !! fk).
    { intros Hne. apply lookup_insert_ne. intros ->. apply Hne.
      exact (NoDup_lookup _ _ _ _ Hnodup Hj Hn). }
    destruct (decide (S n <= j)%nat) as [Hle | Hgt].
    + rewrite decide_True by lia.
      replace (j - n)%nat with (S (j - S n)) by lia. cbn [lookup list_lookup].
      destruct (liveKeys !! (j - S n)%nat) as [lk|]; [reflexivity|].
      apply Hother. lia.
    + destruct (decide (n <= j)%nat) as [Hle | Hlt].
      * assert (j = n) by lia. subst j.
        replace (n - n)%nat with 0%nat by lia. cbn [lookup list_lookup].
        rewrite Hn in Hj. injection Hj as ->. apply lookup_insert_eq.
      * apply Hother. lia.
Qed.

(** C6: the key map is the zip of the fragment's keys with the live keys
    from the selection's start key to its end key: the live keys are the
    keys of the document from the start key to the end key, both included
    (those before the start key skipped, those up to the end key taken, the
    end key appended once), and when the two lists are as long as each
    other the fragment's key at every index is mapped to the live key at
    that index (the keys of a fragment, an ordered map, are distinct). *)
Theorem keyMap_is_positional_zip (editorState : EditorState) (selection : SelectionState)
    (fragment : BlockMap) :
  (forall before inside after,
     keySeq (getBlockMap (getCurrentContent editorState)) =
       (before ++ inside ++ getEndKey selection :: after)%list ->
     getStartKey selection ∉ before ->
     getEndKey selection ∉ inside ->
     (inside = [] /\ getStartKey selection = getEndKey selection
      \/ exists middle, inside = getStartKey selection :: middle) ->
     selectedBlockKeysOf editorState selection = (inside ++ [getEndKey selection])%list)
  /\ (NoDup (keySeq fragment) ->
      length (keySeq fragment) = length (selectedBlockKeysOf editorState selection) ->
      forall (i : nat) (fragmentKey liveKey : string),
        keySeq fragment !! i = Some fragmentKey ->
        selectedBlockKeysOf editorState selection !! i = Some liveKey ->
        keyMapOf (selectedBlockKeysOf editorState selection) (keySeq fragment)
          !! fragmentKey = Some liveKey).
Proof.
  split; [apply selectedBlockKeys_range|].
  intros Hnodup Hlen i fk lk Hfk Hlk. unfold keyMapOf.
  rewrite (keyMap_reduction _ Hnodup _ 0 ∅ i fk) by (assumption || lia).
  rewrite decide_True by lia. rewrite Nat.sub_0_r, Hlk. reflexivity.
Qed.

Lemma keyMap_is_positional_zip_witness :
  selectedBlockKeysOf liveDocument selectionQR = ["q"; "r"]
  /\ keyMapOf (selectedBlockKeysOf liveDocument selectionQR) (keySeq fragmentAB) !! "b"
     = Some "r".
Proof.
  pose proof (keyMap_is_positional_zip liveDocument selectionQR fragmentAB) as [Hrange Hzip].
  split.
  - apply (Hrange ["p"] ["q"] ["s"]).
    + reflexivity.
    + decided.
    + decided.
    + right. exists []. reflexivity.
  - apply (Hzip ltac:(decided) eq_refl 1%nat).
    + reflexivity.
    + reflexivity.
Defined.

Lemma fold_insert_lookup {V : Type} (g : string -> V) (ks : list string)
    (m : gmap string V) (k : string) :
  fold_left (fun acc item => <[item := g item]> acc) ks m !! k =
    if decide (k ∈ ks) then Some (g k) else m !! k.
Proof.
  revert m. induction ks as [|a ks IH]; intros m.
  - cbn. rewrite decide_False by apply not_elem_of_nil. reflexivity.
  - cbn [fold_left]. rewrite IH.
    destruct (decide (k ∈ ks)) as [Hin | Hnin].
    + rewrite decide_True by (apply elem_of_cons; right; exact Hin). reflexivity.
    + destruct (decide (k = a)) as [-> | Hne].
      * rewrite decide_True by apply list_elem_of_here. apply lookup_insert_eq.
      * rewrite decide_False by (rewrite elem_of_cons; tauto).
        apply lookup_insert_ne. congruence.
Qed.

(** The element map holds exactly the keys of the fragment, each with the
    element found or made for it. *)
Lemma blockKeyToElementMap_lookup (parseHTML : string -> list Node) (fragment : BlockMap)
    (keyMap : gmap string string) (el : Node) (item : string) :
  blockKeyToElementMapOf parseHTML fragment keyMap el !! item =
    if decide (item ∈ keySeq fragment)
    then Some (elementFor parseHTML fragment keyMap el item)
    else None.
Proof.
  unfold blockKeyToElementMapOf. rewrite fold_insert_lookup.
  destruct (decide (item ∈ keySeq fragment)); [reflexivity | apply lookup_empty].
Qed.

Lemma omSet_keys (b : ContentBlock) (m : BlockMap) (k : string) :
  k ∈ keySeq (omSet b m) -> k = getKey b \/ k ∈ keySeq m.
Proof.
  induction m as [|b' m IH]; cbn.
  - intros H. apply list_elem_of_singleton in H. left. exact H.
  - destruct (bool_decide (getKey b' = getKey b)) eqn:E; cbn; intros H;
      apply elem_of_cons in H as [H | H].
    + left. exact H.
    + right. apply elem_of_cons. right. exact H.
    + right. apply elem_of_cons. left. exact H.
    + destruct (IH H) as [Hk | Hk]; [left; exact Hk|].
      right. apply elem_of_cons. right. exact Hk.
Qed.

Lemma createFromBlockArray_keys (blocks : list ContentBlock) (k : string) :
  k ∈ keySeq (getBlocksAsArray (createFromBlockArray blocks)) -> k ∈ keySeq blocks.
Proof.
  unfold getBlocksAsArray, createFromBlockArray, toArray. cbn [getBlockMap].
  assert (H : forall m, k ∈ keySeq (fold_left (fun m b => omSet b m) blocks m) ->
                        k ∈ keySeq m \/ k ∈ keySeq blocks).
  { induction blocks as [|b blocks IH]; intros m Hk; [left; exact Hk|].
    cbn [fold_left] in Hk. destruct (IH _ Hk) as [Hm | Hb].
    - destruct (omSet_keys _ _ _ Hm) as [-> | Hm'].
      + right. apply list_elem_of_here.
      + left. exact Hm'.
    - right. cbn. apply elem_of_cons. right. exact Hb. }
  intros Hk. destruct (H [] Hk) as [Hnil | Hb]; [|exact Hb].
  apply elem_of_nil in Hnil. contradiction.
Qed.

(** The reduction never meets a block without an element: the blocks of the
    content are blocks of the fragment, and the element map has an entry
    for every key of the fragment. *)
Lemma inner_returns (outerHTML : Node -> string) (parseHTML : string -> list Node)
    (fragment : BlockMap) (keyMap : gmap string string) (el : Node) :
  exists acc,
    inner outerHTML (createFromBlockArray (toArray fragment))
      (blockKeyToElementMapOf parseHTML fragment keyMap el) = Normal acc.
Proof.
  unfold inner. rewrite reduce_walk.
  destruct (mapM_is_Some_2
              (indentAndMarkup outerHTML
                 (blockKeyToElementMapOf parseHTML fragment keyMap el))
              (getBlocksAsArray (createFromBlockArray (toArray fragment))))
    as [dms Hdms].
  - apply Forall_forall. intros b Hb. cbn. unfold indentAndMarkup.
    rewrite blockKeyToElementMap_lookup, decide_True; [eexists; reflexivity|].
    apply createFromBlockArray_keys. unfold keySeq.
    apply list_elem_of_fmap. exists b. split; [reflexivity | exact Hb].
  - rewrite Hdms. eexists. reflexivity.
Qed.

(** ** The handlers *)

Section HandlerFacts.

Variable getFragmentFromSelection : EditorState -> option BlockMap.
Variable serialise : ContentState -> string.
Variable removeRange :
  ContentState -> SelectionState -> RemovalDirection -> ContentState.
Variable push : EditorState -> ContentState -> EditorChangeType -> EditorState.
Variable getScrollPosition : Node -> ScrollPosition.
Variable outerHTML : Node -> string.
Variable parseHTML : string -> list Node.

Lemma populateClipboardData_normal (editorState : EditorState)
    (selection : SelectionState) (fragment : BlockMap) (w : World)
    (items : gmap string string) (contents : list Node) (acc : Acc) :
  clipboardData (event w) = Some items ->
  rangeContents (domSelection w) = Some contents ->
  inner outerHTML (createFromBlockArray (toArray fragment))
    (elementMapOf serialise parseHTML editorState selection fragment contents) = Normal acc ->
  populateClipboardData serialise outerHTML parseHTML editorState selection fragment w =
    (Normal tt,
     populatedWorld w items (selectionText (domSelection w))
       (outerHTML
          (clonedSelection true (serialise (createFromBlockArray (toArray fragment)))
             contents))
       (outerHTML
          (outputElementOf parseHTML (serialise (createFromBlockArray (toArray fragment)))
             (html acc)))).
Proof.
  intros Hdata Hrange Hinner.
  unfold populateClipboardData, mbind, Js_bind, cloneRangeContents, gets, setData, lift,
    preventDefault, perform.
  rewrite Hrange. cbn [event withEvent logged clipboardData]. rewrite Hdata.
  cbn [event withEvent logged clipboardData].
  change (inner outerHTML (createFromBlockArray (toArray fragment)) _)
    with (inner outerHTML (createFromBlockArray (toArray fragment))
            (elementMapOf serialise parseHTML editorState selection fragment contents)).
  rewrite Hinner. unfold populatedWorld, logged, withEvent.
  cbn [editor event domSelection timers log target clipboardData defaultPrevented].
  do 2 f_equal. rewrite <- !app_assoc. reflexivity.
Qed.

Lemma populateClipboardData_no_range (editorState : EditorState)
    (selection : SelectionState) (fragment : BlockMap) (w : World) :
  rangeContents (domSelection w) = None ->
  populateClipboardData serialise outerHTML parseHTML editorState selection fragment w =
    (Throw IndexSizeError, w).
Proof.
  intros Hrange.
  unfold populateClipboardData, mbind, Js_bind, cloneRangeContents.
  rewrite Hrange. reflexivity.
Qed.

Lemma editOnCopy_collapsed (w : World) :
  isCollapsed (getSelection (_latestEditorState (editor w))) = true ->
  editOnCopy getFragmentFromSelection serialise outerHTML parseHTML w =
    (Normal tt, preventedWorld w).
Proof.
  intros H. unfold editOnCopy, mbind, Js_bind, gets. rewrite H. reflexivity.
Qed.

Lemma editOnCopy_part001_collapsed (w : World) :
  isCollapsed (getSelection (_latestEditorState (editor w))) = true ->
  editOnCopy_part001 getFragmentFromSelection serialise outerHTML w =
    (Normal tt, preventedWorld w).
Proof.
  intros H. unfold editOnCopy_part001, mbind, Js_bind, gets. rewrite H. reflexivity.
Qed.

Lemma editOnCut_collapsed (w : World) :
  isCollapsed (getSelection (_latestEditorState (editor w))) = true ->
  editOnCut getFragmentFromSelection serialise getScrollPosition outerHTML parseHTML w =
    (Normal tt, preventedWorld w).
Proof.
  intros H. unfold editOnCut, mbind, Js_bind, gets. rewrite H. reflexivity.
Qed.

(** With a selection, [editOnCopy] fills the cache, then the clipboard of
    the event when there is one and the fragment is not [null]. *)
Lemma editOnCopy_selected (w : World) :
  isCollapsed (getSelection (_latestEditorState (editor w))) = false ->
  editOnCopy getFragmentFromSelection serialise outerHTML parseHTML w =
    let editorState := _latestEditorState (editor w) in
    let fragment := getFragmentFromSelection editorState in
    match clipboardData (event w), fragment with
    | Some _, Some blocks =>
        populateClipboardData serialise outerHTML parseHTML editorState
          (getSelection editorState) blocks (cachedWorld w fragment)
    | _, _ => (Normal tt, cachedWorld w fragment)
    end.
Proof.
  intros H. unfold editOnCopy, mbind, Js_bind, gets. rewrite H.
  unfold setClipboard, perform. cbn zeta.
  change (logged (SetClipboard ?f) (withEditor _ w)) with (cachedWorld w f).
  cbn [cachedWorld event].
  destruct (clipboardData (event w)); [|reflexivity].
  destruct (getFragmentFromSelection (_latestEditorState (editor w))); reflexivity.
Qed.

(** With a selection, [editOnCut] fills the cache, enters the cut mode and
    leaves the recovery in the timer queue, then fills the clipboard of the
    event when there is one and the fragment is not [null]. *)
Lemma editOnCut_selected (w : World) :
  isCollapsed (getSelection (_latestEditorState (editor w))) = false ->
  editOnCut getFragmentFromSelection serialise getScrollPosition outerHTML parseHTML w =
    let editorState := _latestEditorState (editor w) in
    let fragment := getFragmentFromSelection editorState in
    match clipboardData (event w), fragment with
    | Some _, Some blocks =>
        populateClipboardData serialise outerHTML parseHTML editorState
          (getSelection editorState) blocks (cutWorld w fragment (recoveryOf getScrollPosition w))
    | _, _ => (Normal tt, cutWorld w fragment (recoveryOf getScrollPosition w))
    end.
Proof.
  intros H. unfold editOnCut, mbind, Js_bind, gets. rewrite H.
  unfold setClipboard, setMode, setTimeout, perform, cutWorld, recoveryOf, logged,
    withEditor, withTimers.
  cbn [editor event domSelection timers log _latestEditorState _clipboard mode].
  rewrite <- !app_assoc. cbn [app].
  destruct (clipboardData (event w)); [|reflexivity].
  destruct (getFragmentFromSelection (_latestEditorState (editor w))); reflexivity.
Qed.

(** With a selection, a clipboard on the event, a fragment and a range, the
    build that does not reconstruct writes the plain text and the markup of
    the childless clone. *)
Lemma editOnCopy_part001_selected (w : World) :
  isCollapsed (getSelection (_latestEditorState (editor w))) = false ->
  editOnCopy_part001 getFragmentFromSelection serialise outerHTML w =
    let editorState := _latestEditorState (editor w) in
    let fragment := getFragmentFromSelection editorState in
    match clipboardData (event w), fragment with
    | Some items, Some blocks =>
        match rangeContents (domSelection w) with
        | Some contents =>
            (Normal tt,
             populatedWorld_part001 (cachedWorld w fragment) items
               (selectionText (domSelection w))
               (outerHTML
                  (clonedSelection false
                     (serialise (createFromBlockArray (toArray blocks))) contents)))
        | None => (Throw IndexSizeError, cachedWorld w fragment)
        end
    | _, _ => (Normal tt, cachedWorld w fragment)
    end.
Proof.
  intros H. unfold editOnCopy_part001, mbind, Js_bind, gets. rewrite H.
  cbn zeta. unfold setClipboard, perform.
  change (logged (SetClipboard ?f) (withEditor _ w)) with (cachedWorld w f).
  cbn [cachedWorld event].
  destruct (clipboardData (event w)) as [items|] eqn:Hdata; [|reflexivity].
  destruct (getFragmentFromSelection (_latestEditorState (editor w))) as [blocks|];
    [|reflexivity].
  unfold cloneRangeContents. cbn [cachedWorld domSelection].
  destruct (rangeContents (domSelection w)) as [contents|]; [|reflexivity].
  unfold setData, preventDefault, perform, populatedWorld_part001, logged, withEvent.
  cbn [editor event domSelection timers log target clipboardData defaultPrevented
       cachedWorld].
  rewrite Hdata.
  cbn [editor event domSelection timers log target clipboardData defaultPrevented].
  do 2 f_equal. rewrite <- !app_assoc. reflexivity.
Qed.

(** The function left by [editOnCut] restores the DOM, leaves the mode and
    updates the editor with the state it closed over less its selected
    range, in that order, whatever the world it runs in. *)
Lemma runCallback_recovers (scrollPosition : option ScrollPosition)
    (editorState : EditorState) (w : World) :
  runCallback removeRange push (CutRecovery scrollPosition editorState) w =
    (Normal tt, recoveredWorld w scrollPosition (removeFragment removeRange push editorState)).
Proof.
  unfold runCallback, mbind, Js_bind, restoreEditorDOM, exitCurrentMode, update, perform,
    recoveredWorld, logged, withEditor.
  cbn [editor event domSelection timers log _latestEditorState _clipboard mode id].
  do 2 f_equal. rewrite <- !app_assoc. reflexivity.
Qed.

Lemma preventedWorld_onlyPreventsDefault (handler : Js unit) (w : World) :
  handler w = (Normal tt, preventedWorld w) -> onlyPreventsDefault handler w.
Proof. intros H. exists (preventedWorld w). rewrite H. repeat split. Qed.

(** C5: with a collapsed selection, [editOnCopy] (both builds) and
    [editOnCut] return after the one call [e.preventDefault()]: the
    clipboard cache and the clipboard of the event are as they were (no
    [setClipboard], no [setData]), the default action is prevented, the
    mode is unchanged and nothing is left in the timer queue. *)
Theorem collapsed_selection_only_prevents_default (w : World) :
  isCollapsed (getSelection (_latestEditorState (editor w))) = true ->
  onlyPreventsDefault (editOnCopy getFragmentFromSelection serialise outerHTML parseHTML) w
  /\ onlyPreventsDefault
       (editOnCopy_part001 getFragmentFromSelection serialise outerHTML) w
  /\ onlyPreventsDefault
       (editOnCut getFragmentFromSelection serialise getScrollPosition outerHTML parseHTML)
       w.
Proof.
  intros H. repeat split; apply preventedWorld_onlyPreventsDefault.
  - apply editOnCopy_collapsed, H.
  - apply editOnCopy_part001_collapsed, H.
  - apply editOnCut_collapsed, H.
Qed.

(** With a selection, a clipboard on the event, a fragment and a range,
    [editOnCopy] fills the cache, writes the plain text, the markup of the
    captured selection and then the reconstructed markup, and prevents the
    default action. *)
Lemma editOnCopy_with_payload (w : World) (items : gmap string string)
    (blocks : BlockMap) (contents : list Node) :
  isCollapsed (getSelection (_latestEditorState (editor w))) = false ->
  clipboardData (event w) = Some items ->
  getFragmentFromSelection (_latestEditorState (editor w)) = Some blocks ->
  rangeContents (domSelection w) = Some contents ->
  exists acc,
    inner outerHTML (createFromBlockArray (toArray blocks))
      (elementMapOf serialise parseHTML (_latestEditorState (editor w))
         (getSelection (_latestEditorState (editor w))) blocks contents) = Normal acc
    /\ editOnCopy getFragmentFromSelection serialise outerHTML parseHTML w =
         (Normal tt,
          populatedWorld (cachedWorld w (Some blocks)) items
            (selectionText (domSelection w))
            (outerHTML
               (clonedSelection true (serialise (createFromBlockArray (toArray blocks)))
                  contents))
            (outerHTML
               (outputElementOf parseHTML
                  (serialise (createFromBlockArray (toArray blocks))) (html acc)))).
Proof.
  intros Hsel Hdata Hfragment Hrange.
  destruct (inner_returns outerHTML parseHTML blocks
              (keyMapOf (selectedBlockKeysOf (_latestEditorState (editor w))
                           (getSelection (_latestEditorState (editor w))))
                 (keySeq blocks))
              (clonedSelection true (serialise (createFromBlockArray (toArray blocks)))
                 contents)) as [acc Hacc].
  exists acc. split; [exact Hacc|].
  rewrite (editOnCopy_selected w Hsel). cbn zeta. rewrite Hdata, Hfragment.
  apply (populateClipboardData_normal _ _ _ (cachedWorld w (Some blocks)) items
           contents acc); [exact Hdata | exact Hrange | exact Hacc].
Qed.

(** The same for [editOnCut], after the cache is filled, the cut mode
    entered and the recovery left in the timer queue. *)
Lemma editOnCut_with_payload (w : World) (items : gmap string string)
    (blocks : BlockMap) (contents : list Node) :
  isCollapsed (getSelection (_latestEditorState (editor w))) = false ->
  clipboardData (event w) = Some items ->
  getFragmentFromSelection (_latestEditorState (editor w)) = Some blocks ->
  rangeContents (domSelection w) = Some contents ->
  exists acc,
    inner outerHTML (createFromBlockArray (toArray blocks))
      (elementMapOf serialise parseHTML (_latestEditorState (editor w))
         (getSelection (_latestEditorState (editor w))) blocks contents) = Normal acc
    /\ editOnCut getFragmentFromSelection serialise getScrollPosition outerHTML parseHTML
         w =
         (Normal tt,
          populatedWorld (cutWorld w (Some blocks) (recoveryOf getScrollPosition w)) items
            (selectionText (domSelection w))
            (outerHTML
               (clonedSelection true (serialise (createFromBlockArray (toArray blocks)))
                  contents))
            (outerHTML
               (outputElementOf parseHTML
                  (serialise (createFromBlockArray (toArray blocks))) (html acc)))).
Proof.
  intros Hsel Hdata Hfragment Hrange.
  destruct (inner_returns outerHTML parseHTML blocks
              (keyMapOf (selectedBlockKeysOf (_latestEditorState (editor w))
                           (getSelection (_latestEditorState (editor w))))
                 (keySeq blocks))
              (clonedSelection true (serialise (createFromBlockArray (toArray blocks)))
                 contents)) as [acc Hacc].
  exists acc. split; [exact Hacc|].
  rewrite (editOnCut_selected w Hsel). cbn zeta. rewrite Hdata, Hfragment.
  apply (populateClipboardData_normal _ _ _
           (cutWorld w (Some blocks) (recoveryOf getScrollPosition w)) items
           contents acc); [exact Hdata | exact Hrange | exact Hacc].
Qed.


(** C4 (as amended): with a selection that is not collapsed, the handlers
    call [e.preventDefault()] when the event has a [clipboardData], the
    fragment is not [null] and the selection has a range: they return with
    the default action prevented. When the event has no [clipboardData]
    they return after filling the cache (and, for a cut, entering the cut
    mode and leaving the recovery in the timer queue) without calling
    [e.preventDefault()]: the default action is left to the platform. *)
Theorem default_prevented_when_clipboard_data (w : World) :
  isCollapsed (getSelection (_latestEditorState (editor w))) = false ->
  (clipboardData (event w) = None ->
   editOnCopy getFragmentFromSelection serialise outerHTML parseHTML w =
     (Normal tt,
      cachedWorld w (getFragmentFromSelection (_latestEditorState (editor w))))
   /\ editOnCopy_part001 getFragmentFromSelection serialise outerHTML w =
        (Normal tt,
         cachedWorld w (getFragmentFromSelection (_latestEditorState (editor w))))
   /\ editOnCut getFragmentFromSelection serialise getScrollPosition outerHTML parseHTML w =
        (Normal tt,
         cutWorld w (getFragmentFromSelection (_latestEditorState (editor w)))
           (recoveryOf getScrollPosition w))
   /\ defaultPrevented
        (event (cachedWorld w
                  (getFragmentFromSelection (_latestEditorState (editor w))))) =
        defaultPrevented (event w)
   /\ defaultPrevented
        (event (cutWorld w (getFragmentFromSelection (_latestEditorState (editor w)))
                  (recoveryOf getScrollPosition w))) =
        defaultPrevented (event w))
  /\ (forall items blocks contents,
        clipboardData (event w) = Some items ->
        getFragmentFromSelection (_latestEditorState (editor w)) = Some blocks ->
        rangeContents (domSelection w) = Some contents ->
        (exists w',
           editOnCopy getFragmentFromSelection serialise outerHTML parseHTML w =
             (Normal tt, w')
           /\ defaultPrevented (event w') = true
           /\ last (log w') = Some PreventDefault)
        /\ (exists w',
              editOnCopy_part001 getFragmentFromSelection serialise outerHTML w =
                (Normal tt, w')
              /\ defaultPrevented (event w') = true
              /\ last (log w') = Some PreventDefault)
        /\ (exists w',
              editOnCut getFragmentFromSelection serialise getScrollPosition outerHTML
                parseHTML w = (Normal tt, w')
              /\ defaultPrevented (event w') = true
              /\ last (log w') = Some PreventDefault)).
Proof.
  intros Hsel. split.
  - intros Hdata.
    rewrite (editOnCopy_selected w Hsel), (editOnCopy_part001_selected w Hsel),
      (editOnCut_selected w Hsel).
    cbn zeta. rewrite Hdata. repeat split.
  - intros items blocks contents Hdata Hfragment Hrange.
    destruct (editOnCopy_with_payload w items blocks contents Hsel Hdata Hfragment Hrange)
      as (acc & _ & Hcopy).
    destruct (editOnCut_with_payload w items blocks contents Hsel Hdata Hfragment Hrange)
      as (acc' & _ & Hcut).
    rewrite Hcopy, Hcut, (editOnCopy_part001_selected w Hsel).
    cbn zeta. rewrite Hdata, Hfragment, Hrange.
    split; [|split]; eexists; (split; [reflexivity|]); (split; [reflexivity|]).
    + cbn [populatedWorld log]. rewrite last_app_cons. reflexivity.
    + cbn [populatedWorld_part001 log]. rewrite last_app_cons. reflexivity.
    + cbn [populatedWorld log]. rewrite last_app_cons. reflexivity.
Qed.

(** What [editOnCut] leaves behind with a selection: the calls that fill
    the cache and enter the cut mode, then the calls on the clipboard of
    the event if any, none of them a call of the recovery; and the
    recovery as the one new entry of the timer queue. *)
Lemma editOnCut_leaves_recovery (w : World) :
  isCollapsed (getSelection (_latestEditorState (editor w))) = false ->
  exists calls,
    log (snd (editOnCut getFragmentFromSelection serialise getScrollPosition outerHTML
                parseHTML w)) =
      (log w
       ++ SetClipboard (getFragmentFromSelection (_latestEditorState (editor w)))
          :: SetMode "cut" :: calls)%list
    /\ Forall (fun c => isRecoveryCall c = false) calls
    /\ timers (snd (editOnCut getFragmentFromSelection serialise getScrollPosition
                      outerHTML parseHTML w)) =
         (timers w ++ [recoveryOf getScrollPosition w])%list.
Proof.
  intros Hsel.
  destruct (clipboardData (event w)) as [items|] eqn:Hdata;
    [destruct (getFragmentFromSelection (_latestEditorState (editor w)))
       as [blocks|] eqn:Hfragment;
     [destruct (rangeContents (domSelection w)) as [contents|] eqn:Hrange|]|].
  - destruct (editOnCut_with_payload w items blocks contents Hsel Hdata Hfragment Hrange)
      as (acc & _ & Hcut).
    rewrite Hcut. cbn [snd populatedWorld cutWorld log timers].
    eexists. split; [rewrite <- app_assoc; reflexivity|].
    split; [|reflexivity]. repeat constructor.
  - rewrite (editOnCut_selected w Hsel). cbn zeta. rewrite Hdata, Hfragment.
    rewrite populateClipboardData_no_range by exact Hrange.
    exists []. split; [reflexivity|]. split; [constructor | reflexivity].
  - rewrite (editOnCut_selected w Hsel). cbn zeta. rewrite Hdata, Hfragment.
    exists []. split; [reflexivity|]. split; [constructor | reflexivity].
  - rewrite (editOnCut_selected w Hsel). cbn zeta. rewrite Hdata.
    exists []. split; [reflexivity|]. split; [constructor | reflexivity].
Qed.






(** C10: the recovery that [editOnCut] leaves in the timer queue closes
    over the editor state read when the event fired; whatever the world it
    runs in later, and whatever the editor's latest state is by then, it
    updates the editor with [push] of that state, the content being
    [removeRange] of that state's content and selection in the forward
    direction and the change type [remove-range]. *)
Theorem cut_removal_uses_the_state_of_the_event (w : World) :
  isCollapsed (getSelection (_latestEditorState (editor w))) = false ->
  timers (snd (editOnCut getFragmentFromSelection serialise getScrollPosition outerHTML
                 parseHTML w)) =
    (timers w
     ++ [CutRecovery (scrollPositionOf getScrollPosition w)
           (_latestEditorState (editor w))])%list
  /\ forall later : World,
       runCallback removeRange push
         (CutRecovery (scrollPositionOf getScrollPosition w)
            (_latestEditorState (editor w))) later =
         (Normal tt,
          recoveredWorld later (scrollPositionOf getScrollPosition w)
            (push (_latestEditorState (editor w))
               (removeRange (getCurrentContent (_latestEditorState (editor w)))
                  (getSelection (_latestEditorState (editor w))) forward)
               remove_range)).
Proof.
  intros Hsel. split.
  - destruct (editOnCut_leaves_recovery w Hsel) as (calls & _ & _ & Hqueue).
    exact Hqueue.
  - intros later. apply runCallback_recovers.
Qed.

End HandlerFacts.

(** ** Nodes and their descendants *)

Lemma Node_nested_ind (P : Node -> Prop) :
  (forall d, P (Text d)) ->
  (forall t attrs cs, Forall P cs -> P (Element t attrs cs)) ->
  forall n, P n.
Proof.
  intros HT HE. fix IH 1. intros [d | t attrs cs]; [apply HT|].
  apply HE. revert cs. fix IHcs 1. intros [|c cs]; constructor; [apply IH | apply IHcs].
Qed.

Lemma querySelector_cons (sel : Node -> bool) (t : string) (attrs : list (string * string))
    (c : Node) (cs : list Node) :
  querySelector sel (Element t attrs (c :: cs)) =
    match findFirst sel c with
    | Some r => Some r
    | None => querySelector sel (Element t attrs cs)
    end.
Proof. reflexivity. Qed.

Lemma findFirst_element (sel : Node -> bool) (t : string) (attrs : list (string * string))
    (cs : list Node) :
  findFirst sel (Element t attrs cs) =
    if sel (Element t attrs cs) then Some (Element t attrs cs)
    else querySelector sel (Element t attrs cs).
Proof. reflexivity. Qed.

Lemma removeAll_cons (sel : Node -> bool) (t : string) (attrs : list (string * string))
    (c : Node) (cs : list Node) :
  removeAll sel (Element t attrs (c :: cs)) =
    Element t attrs
      (if sel c then childrenOf (removeAll sel (Element t attrs cs))
       else removeAll sel c :: childrenOf (removeAll sel (Element t attrs cs))).
Proof. cbn. destruct (sel c); reflexivity. Qed.

Lemma removeAll_element (sel : Node -> bool) (t : string) (attrs : list (string * string))
    (cs : list Node) :
  removeAll sel (Element t attrs cs) =
    Element t attrs (childrenOf (removeAll sel (Element t attrs cs))).
Proof. reflexivity. Qed.

(** What [findFirst] finds matches the selector. *)
Lemma findFirst_sound (sel : Node -> bool) (n r : Node) :
  findFirst sel n = Some r -> sel r = true.
Proof.
  revert r. induction n as [d | t attrs cs IH] using Node_nested_ind; intros r.
  - cbn. destruct (sel (Text d)) eqn:Hsel; [|discriminate].
    intros H. injection H as <-. exact Hsel.
  - rewrite findFirst_element. destruct (sel (Element t attrs cs)) eqn:Hsel.
    + intros H. injection H as <-. exact Hsel.
    + clear Hsel. induction cs as [|c cs IHcs]; [discriminate|].
      apply Forall_cons in IH as [Hc Hcs]. rewrite querySelector_cons.
      destruct (findFirst sel c) as [r'|] eqn:Hfind.
      * intros H. injection H as <-. apply Hc. reflexivity.
      * apply IHcs, Hcs.
Qed.

Lemma querySelector_sound (sel : Node -> bool) (el r : Node) :
  querySelector sel el = Some r -> sel r = true.
Proof.
  destruct el as [d | t attrs cs]; [discriminate|].
  induction cs as [|c cs IH]; [discriminate|].
  rewrite querySelector_cons. destruct (findFirst sel c) as [r'|] eqn:Hfind; [|exact IH].
  intros H. injection H as <-. exact (findFirst_sound _ _ _ Hfind).
Qed.

(** Where nothing matches a selector, nothing matches it inside what another
    selector finds there. *)
Lemma findFirst_inside (sel sel' : Node -> bool) (n r : Node) :
  findFirst sel n = None -> findFirst sel' n = Some r -> findFirst sel r = None.
Proof.
  revert r. induction n as [d | t attrs cs IH] using Node_nested_ind; intros r Hnone.
  - cbn. destruct (sel' (Text d)); [|discriminate]. intros H. injection H as <-.
    exact Hnone.
  - rewrite findFirst_element. destruct (sel' (Element t attrs cs)).
    + intros H. injection H as <-. exact Hnone.
    + rewrite findFirst_element in Hnone.
      destruct (sel (Element t attrs cs)); [discriminate|].
      induction cs as [|c cs IHcs]; [discriminate|].
      apply Forall_cons in IH as [Hc Hcs]. rewrite querySelector_cons in Hnone |- *.
      destruct (findFirst sel c) eqn:Hselc; [discriminate|].
      destruct (findFirst sel' c) as [r'|] eqn:Hfind.
      * intros H. injection H as <-. apply Hc; reflexivity.
      * apply IHcs; assumption.
Qed.

Lemma querySelector_inside (sel sel' : Node -> bool) (el r : Node) :
  querySelector sel el = None -> querySelector sel' el = Some r -> findFirst sel r = None.
Proof.
  destruct el as [d | t attrs cs]; [discriminate|].
  induction cs as [|c cs IH]; [discriminate|].
  rewrite !querySelector_cons.
  destruct (findFirst sel c) eqn:Hselc; [discriminate|].
  destruct (findFirst sel' c) as [r'|] eqn:Hfind; [|exact IH].
  intros _ H. injection H as <-. exact (findFirst_inside _ _ _ _ Hselc Hfind).
Qed.

Lemma removeAll_keeps_selector (sel sel' : Node -> bool) (n : Node) :
  attributeSelector sel' -> sel' (removeAll sel n) = sel' n.
Proof.
  intros Hattr. destruct n as [d | t attrs cs]; [reflexivity|].
  rewrite removeAll_element. apply Hattr.
Qed.

(** After the removal no descendant matches the selector. *)
Lemma removeAll_clean (sel : Node -> bool) (n : Node) :
  attributeSelector sel ->
  querySelector sel (removeAll sel n) = None
  /\ (sel n = false -> findFirst sel (removeAll sel n) = None).
Proof.
  intros Hattr. induction n as [d | t attrs cs IH] using Node_nested_ind.
  - split; [reflexivity|]. cbn. intros ->. reflexivity.
  - assert (Hq : querySelector sel (removeAll sel (Element t attrs cs)) = None).
    { induction cs as [|c cs IHcs]; [reflexivity|].
      apply Forall_cons in IH as [[_ Hc] Hcs]. specialize (IHcs Hcs).
      rewrite removeAll_cons. rewrite removeAll_element in IHcs.
      destruct (sel c) eqn:Hselc; [exact IHcs|].
      rewrite querySelector_cons, (Hc eq_refl). exact IHcs. }
    split; [exact Hq|]. intros Hsel.
    rewrite removeAll_element, findFirst_element.
    rewrite <- removeAll_element, (removeAll_keeps_selector sel sel _ Hattr), Hsel.
    exact Hq.
Qed.

Lemma matchesNotEditable_attributeSelector : attributeSelector matchesNotEditable.
Proof. intros t attrs cs cs'. reflexivity. Qed.

(** ** The two builds of the copy handler *)

Lemma outputElementOf_div (parseHTML : string -> list Node)
    (serialisedContent markup : string) :
  outputElementOf parseHTML serialisedContent markup =
    Element "div" [("data-editor-content", serialisedContent)] (parseHTML markup).
Proof. reflexivity. Qed.


Lemma clonedSelection_capturedRoot (deep : bool) (serialisedContent : string)
    (contents : list Node) :
  capturedRoot serialisedContent (clonedSelection deep serialisedContent contents).
Proof.
  split; [|split; [|split]].
  - unfold clonedSelection, fragmentEltOf, appendChild, createElement. cbn [setAttribute].
    cbn [cloneNode]. rewrite removeAll_element. reflexivity.
  - unfold clonedSelection, fragmentEltOf, appendChild, createElement. cbn [setAttribute].
    cbn [cloneNode]. rewrite removeAll_element. vm_compute. reflexivity.
  - unfold clonedSelection, fragmentEltOf, appendChild, createElement. cbn [setAttribute].
    cbn [cloneNode]. rewrite removeAll_element. vm_compute. reflexivity.
  - unfold clonedSelection.
    apply (removeAll_clean matchesNotEditable _ matchesNotEditable_attributeSelector).
Qed.

(** C9 (as amended): with a selection, a clipboard on the event, a fragment
    and a range, the two builds of [editOnCopy] fill the cache with the
    same fragment, write the same plain text, write as markup the markup
    of their clone of the captured selection, a [div] that carries the
    serialised fragment and the style and has no descendant that is not
    editable, and prevent the default action.  The build without the
    reconstruction makes these calls and no other, so that the markup of
    its clone is what it leaves on the clipboard; [lib/editOnCopy.js]
    writes the markup a second time, before it prevents the default
    action, and leaves the markup of the output element, a [div] that
    carries the serialised fragment and holds what the parser makes of the
    reconstructed markup. *)
Theorem copy_builds_agree_up_to_the_reconstruction
    (getFragmentFromSelection : EditorState -> option BlockMap)
    (serialise : ContentState -> string) (outerHTML : Node -> string)
    (parseHTML : string -> list Node)
    (w : World) (items : gmap string string) (blocks : BlockMap)
    (contents : list Node) :
  isCollapsed (getSelection (_latestEditorState (editor w))) = false ->
  clipboardData (event w) = Some items ->
  getFragmentFromSelection (_latestEditorState (editor w)) = Some blocks ->
  rangeContents (domSelection w) = Some contents ->
  let serialisedContent := serialise (createFromBlockArray (toArray blocks)) in
  exists (acc : Acc) (full simple : World) (clone clone' output : Node),
    inner outerHTML (createFromBlockArray (toArray blocks))
      (elementMapOf serialise parseHTML (_latestEditorState (editor w))
         (getSelection (_latestEditorState (editor w))) blocks contents) = Normal acc
    /\ editOnCopy getFragmentFromSelection serialise outerHTML parseHTML w =
         (Normal tt, full)
    /\ editOnCopy_part001 getFragmentFromSelection serialise outerHTML w =
         (Normal tt, simple)
    /\ log simple =
         (log w ++ [SetClipboard (Some blocks);
                    SetData "text/plain" (selectionText (domSelection w));
                    SetData "text/html" (outerHTML clone');
                    PreventDefault])%list
    /\ log full =
         (log w ++ [SetClipboard (Some blocks);
                    SetData "text/plain" (selectionText (domSelection w));
                    SetData "text/html" (outerHTML clone);
                    SetData "text/html" (outerHTML output);
                    PreventDefault])%list
    /\ capturedRoot serialisedContent clone
    /\ capturedRoot serialisedContent clone'
    /\ tagNameOf output = Some "div"
    /\ getAttribute "data-editor-content" output = Some serialisedContent
    /\ childrenOf output = parseHTML (html acc)
    /\ htmlPayload simple = Some (outerHTML clone')
    /\ htmlPayload full = Some (outerHTML output)
    /\ plainPayload full = Some (selectionText (domSelection w))
    /\ plainPayload simple = Some (selectionText (domSelection w))
    /\ _clipboard (editor full) = Some blocks
    /\ _clipboard (editor simple) = Some blocks
    /\ defaultPrevented (event full) = true
    /\ defaultPrevented (event simple) = true.
Proof.
  intros Hsel Hdata Hfragment Hrange. cbn zeta.
  destruct (editOnCopy_with_payload getFragmentFromSelection serialise outerHTML
              parseHTML w items blocks contents Hsel Hdata Hfragment Hrange)
    as (acc & Hacc & Hcopy).
  pose proof (editOnCopy_part001_selected getFragmentFromSelection serialise
                outerHTML w Hsel) as Hpart.
  cbn zeta in Hpart. rewrite Hdata, Hfragment, Hrange in Hpart.
  exists acc. eexists _, _.
  exists (clonedSelection true (serialise (createFromBlockArray (toArray blocks)))
            contents),
    (clonedSelection false (serialise (createFromBlockArray (toArray blocks))) contents),
    (outputElementOf parseHTML (serialise (createFromBlockArray (toArray blocks)))
       (html acc)).
  split; [exact Hacc|]. split; [exact Hcopy|]. split; [exact Hpart|].
  cbn [populatedWorld populatedWorld_part001 cachedWorld log editor event _clipboard
       defaultPrevented].
  split; [rewrite <- app_assoc; reflexivity|].
  split; [rewrite <- app_assoc; reflexivity|].
  split; [apply clonedSelection_capturedRoot|].
  split; [apply clonedSelection_capturedRoot|].
  split; [reflexivity|].
  split; [rewrite outputElementOf_div; vm_compute; reflexivity|].
  split; [rewrite outputElementOf_div; reflexivity|].
  unfold htmlPayload, plainPayload.
  cbn [populatedWorld populatedWorld_part001 event clipboardData].
  rewrite !lookup_insert_eq.
  rewrite !(lookup_insert_ne _ "text/html" "text/plain") by decided.
  rewrite !lookup_insert_eq. repeat split.
Qed.

(** ** The handlers on concrete worlds *)

Lemma collapsed_selection_only_prevents_default_witness :
  isCollapsed (getSelection (_latestEditorState (editor collapsedWorld))) = true
  /\ onlyPreventsDefault
       (editOnCopy fragmentOf serialiseKeys serializeNode parseMarkup) collapsedWorld
  /\ onlyPreventsDefault
       (editOnCut fragmentOf serialiseKeys scrollOrigin serializeNode parseMarkup)
       collapsedWorld.
Proof.
  split; [reflexivity|].
  destruct (collapsed_selection_only_prevents_default fragmentOf serialiseKeys
              scrollOrigin serializeNode parseMarkup collapsedWorld eq_refl)
    as (Hcopy & _ & Hcut).
  split; assumption.
Defined.

Lemma default_prevented_when_clipboard_data_witness :
  editOnCut fragmentOf serialiseKeys scrollOrigin serializeNode parseMarkup
    (selectedWorld None) =
    (Normal tt,
     cutWorld (selectedWorld None) (Some fragmentAB)
       (CutRecovery (Some (0%Z, 0%Z)) liveDocument))
  /\ exists w',
       editOnCopy fragmentOf serialiseKeys serializeNode parseMarkup
         (selectedWorld (Some ∅)) = (Normal tt, w')
       /\ defaultPrevented (event w') = true.
Proof.
  split.
  - destruct (default_prevented_when_clipboard_data fragmentOf serialiseKeys scrollOrigin
                serializeNode parseMarkup (selectedWorld None) eq_refl) as [H _].
    destruct (H eq_refl) as (_ & _ & Hcut & _). exact Hcut.
  - destruct (default_prevented_when_clipboard_data fragmentOf serialiseKeys scrollOrigin
                serializeNode parseMarkup (selectedWorld (Some ∅)) eq_refl) as [_ H].
    destruct (H ∅ fragmentAB paintedSelection eq_refl eq_refl eq_refl)
      as [(w' & Hcopy & Hprevented & _) _].
    exists w'. split; assumption.
Defined.

(** A selection that is not collapsed and an event without [clipboardData]:
    neither the copy nor the cut calls [e.preventDefault()]. *)
Lemma default_not_prevented_without_clipboard_data :
  isCollapsed (getSelection (_latestEditorState (editor (selectedWorld None)))) = false
  /\ log (snd (editOnCopy fragmentOf serialiseKeys serializeNode parseMarkup
                 (selectedWorld None))) = [SetClipboard (Some fragmentAB)]
  /\ defaultPrevented
       (event (snd (editOnCopy fragmentOf serialiseKeys serializeNode parseMarkup
                      (selectedWorld None)))) = false
  /\ log (dispatch removeSelected pushContent
            (editOnCut fragmentOf serialiseKeys scrollOrigin serializeNode parseMarkup)
            (selectedWorld None)) =
       [SetClipboard (Some fragmentAB); SetMode "cut";
        RestoreEditorDOM (Some (0%Z, 0%Z)); ExitCurrentMode;
        Update (removeFragment removeSelected pushContent liveDocument)]
  /\ defaultPrevented
       (event (dispatch removeSelected pushContent
                 (editOnCut fragmentOf serialiseKeys scrollOrigin serializeNode
                    parseMarkup)
                 (selectedWorld None))) = false.
Proof. repeat split; vm_compute; reflexivity. Qed.


Lemma cut_removal_uses_the_state_of_the_event_witness :
  _latestEditorState (editor collapsedWorld) <> liveDocument
  /\ runCallback removeSelected pushContent
       (CutRecovery (Some (0%Z, 0%Z)) liveDocument) collapsedWorld =
       (Normal tt,
        recoveredWorld collapsedWorld (Some (0%Z, 0%Z))
          (pushContent liveDocument
             (removeSelected liveContent selectionQR forward) remove_range)).
Proof.
  split; [discriminate|].
  destruct (cut_removal_uses_the_state_of_the_event fragmentOf serialiseKeys
              removeSelected pushContent scrollOrigin serializeNode parseMarkup
              (selectedWorld (Some ∅)) eq_refl) as [_ Hlater].
  exact (Hlater collapsedWorld).
Defined.

Lemma copy_builds_agree_up_to_the_reconstruction_witness :
  exists clone output,
    log (snd (editOnCopy_part001 fragmentOf serialiseKeys serializeNode
                (selectedWorld (Some ∅)))) =
      [SetClipboard (Some fragmentAB); SetData "text/plain" "text of qtext of r";
       SetData "text/html" (serializeNode clone); PreventDefault]
    /\ htmlPayload
         (snd (editOnCopy fragmentOf serialiseKeys serializeNode parseMarkup
                 (selectedWorld (Some ∅)))) = Some (serializeNode output)
    /\ getAttribute "data-editor-content" output = Some "[ab]".
Proof.
  pose proof (copy_builds_agree_up_to_the_reconstruction fragmentOf serialiseKeys
                serializeNode parseMarkup (selectedWorld (Some ∅)) ∅ fragmentAB
                paintedSelection eq_refl eq_refl eq_refl eq_refl) as H.
  cbn zeta in H.
  destruct H as (acc & full & simple & clone & clone' & output & _ & Hfull & Hsimple
                 & Hlog & _ & _ & _ & _ & Hcontent & _ & _ & Hpayload & _).
  exists clone', output. rewrite Hfull, Hsimple. cbn [snd].
  split; [exact Hlog|]. split; [exact Hpayload | exact Hcontent].
Defined.

(** The selection from block [q] to block [r], copied by the two builds:
    the markup they leave on the clipboard is not the same. *)
Lemma copy_builds_differ_on_a_selection :
  htmlPayload
    (snd (editOnCopy fragmentOf serialiseKeys serializeNode parseMarkup
            (selectedWorld (Some ∅)))) =
    Some (serializeNode
            (Element "div" [("data-editor-content", "[ab]")]
               [renderedBlock "q" "text of q";
                Element "ul" []
                  [Element "ul" [] [Element "li" [] [plainDiv "two"]]]]))
  /\ htmlPayload
       (snd (editOnCopy_part001 fragmentOf serialiseKeys serializeNode
               (selectedWorld (Some ∅)))) =
       Some (serializeNode
               (Element "div"
                  [("data-editor-content", "[ab]"); ("style", "white-space: pre-wrap;")]
                  []))
  /\ htmlPayload
       (snd (editOnCopy fragmentOf serialiseKeys serializeNode parseMarkup
               (selectedWorld (Some ∅)))) <>
     htmlPayload
       (snd (editOnCopy_part001 fragmentOf serialiseKeys serializeNode
               (selectedWorld (Some ∅)))).
Proof.
  split; [vm_compute; reflexivity|]. split; [vm_compute; reflexivity|].
  vm_compute. discriminate.
Qed.

(** ** Reading markup back *)











Lemma snoc_append (s : string) (c : ascii) (t : string) :
  snoc s c +:+ t = s +:+ String c t.
Proof. unfold snoc. rewrite append_assoc. reflexivity. Qed.

(** *** The tokens *)

Lemma allChars_weaken (p q : ascii -> bool) (s : string) :
  (forall c, p c = true -> q c = true) -> allChars p s = true -> allChars q s = true.
Proof.
  intros Hpq. induction s as [|c s IH]; [reflexivity|]. cbn [allChars]. intros H.
  apply andb_prop in H as [Hc Hs]. rewrite (Hpq _ Hc), (IH Hs). reflexivity.
Qed.

Lemma tokenize_characters (d rest data : string) :
  allChars (fun c => negb (Ascii.eqb c "<")) d = true ->
  tokenize (d +:+ rest) None data = tokenize rest None (data +:+ d).
Proof.
  revert data. induction d as [|c d IH]; intros data H.
  - rewrite append_nil_r. reflexivity.
  - cbn [allChars] in H. apply andb_prop in H as [Hc Hd].
    rewrite append_cons. cbn [tokenize].
    destruct (Ascii.eqb c "<"); [discriminate Hc|].
    rewrite (IH _ Hd), snoc_append. reflexivity.
Qed.


(** Text without markup is read as it stands. *)
Lemma parseMarkup_text (s : string) : markupFree s = true -> parseMarkup s = textNodes s.
Proof.
  intros H. unfold parseMarkup.
  assert (Hs : allChars (fun c => negb (Ascii.eqb c "<")) s = true).
  { revert H. apply allChars_weaken. intros c Hc.
    destruct (Ascii.eqb c "<"); [discriminate Hc | reflexivity]. }
  pose proof (tokenize_characters s "" "" Hs) as Htok.
  rewrite append_nil_r, append_nil_l in Htok. rewrite Htok.
  destruct s; reflexivity.
Qed.



















Lemma tagToken_end (t : string) : tagToken (String "/" t) = EndTag t.
Proof. reflexivity. Qed.







(** *** The tree *)









(** ** The fallback element *)

(** C7: a block whose text holds markup, copied from a selection inside
    it.  The fragment block has a new key and the text [<b>bold</b>]; the
    range holds a slice of the text node and no element of the block, so
    the element map falls back on a new [div].  The text is assigned as the
    [innerHTML] of that [div]: the [div] holds a [b] element around the
    text [bold], not the block's text, and that is the markup the copy
    and the cut leave on the clipboard, where a [div] that holds the text
    would be written with the text escaped. *)
Lemma fallback_reads_the_text_as_markup :
  getInText markupFragment "m" = "<b>bold</b>"
  /\ querySelector
       (matchesBlock
          (readProperty
             (keyMapOf (selectedBlockKeysOf markupDocument selectionInQ)
                (keySeq markupFragment)) "m"))
       (clonedSelection true (serialiseKeys (createFromBlockArray (toArray markupFragment)))
          markupCapture) = None
  /\ elementMapOf serialiseKeys parseMarkup markupDocument selectionInQ markupFragment
       markupCapture !! "m" =
       Some (Element "div" [] [Element "b" [] [Text "bold"]])
  /\ serializeNode (Element "div" [] [Element "b" [] [Text "bold"]]) =
       "<div><b>bold</b></div>"
  /\ serializeNode (Element "div" [] [Text "<b>bold</b>"]) =
       "<div>&lt;b&gt;bold&lt;/b&gt;</div>"
  /\ (exists full,
        editOnCopy (fun _ => Some markupFragment) serialiseKeys serializeNode parseMarkup
          markupWorld = (Normal tt, full)
        /\ htmlPayload full =
             Some (serializeNode
                     (Element "div" [("data-editor-content", "[m]")]
                        [Element "div" [] [Element "b" [] [Text "bold"]]])))
  /\ (exists cut,
        editOnCut (fun _ => Some markupFragment) serialiseKeys scrollOrigin serializeNode
          parseMarkup markupWorld = (Normal tt, cut)
        /\ htmlPayload cut =
             Some (serializeNode
                     (Element "div" [("data-editor-content", "[m]")]
                        [Element "div" [] [Element "b" [] [Text "bold"]]]))).
Proof.
  split; [reflexivity|]. split; [vm_compute; reflexivity|].
  split; [vm_compute; reflexivity|]. split; [vm_compute; reflexivity|].
  split; [vm_compute; reflexivity|].
  split; eexists; (split; [vm_compute; reflexivity | vm_compute; reflexivity]).
Qed.

(** * Further properties *)

(** ** The reduction over the blocks *)

Lemma reduceBlock_any_content (outerHTML : Node -> string) (c1 c2 : ContentState)
    (elementMap : gmap string Node) (acc : Acc) (item : ContentBlock) :
  reduceBlock outerHTML c1 elementMap acc item =
  reduceBlock outerHTML c2 elementMap acc item.
Proof. reflexivity. Qed.

Lemma reduce_any_content (outerHTML : Node -> string) (c1 c2 : ContentState)
    (elementMap : gmap string Node) (blocks : list ContentBlock) (acc : Acc) :
  reduce (reduceBlock outerHTML c1 elementMap) blocks acc =
  reduce (reduceBlock outerHTML c2 elementMap) blocks acc.
Proof.
  revert acc. induction blocks as [|b blocks IH]; intros acc; [reflexivity|].
  cbn [reduce]. rewrite (reduceBlock_any_content outerHTML c1 c2).
  destruct (reduceBlock outerHTML c2 elementMap acc b); [apply IH | reflexivity].
Qed.

(** The markup only grows: what a block adds comes after what is there. *)
Lemma reduce_html_extends (outerHTML : Node -> string) (content : ContentState)
    (elementMap : gmap string Node) (blocks : list ContentBlock) (acc acc' : Acc) :
  reduce (reduceBlock outerHTML content elementMap) blocks acc = Normal acc' ->
  exists suffix, html acc' = html acc +:+ suffix.
Proof.
  revert acc. induction blocks as [|b blocks IH]; intros acc H.
  - cbn in H. injection H as <-. exists "". rewrite append_nil_r. reflexivity.
  - cbn [reduce] in H. rewrite reduceBlock_walkStep in H.
    destruct (indentAndMarkup outerHTML elementMap b) as [dm|]; [|discriminate].
    destruct (IH _ H) as [suffix Hsuffix]. rewrite Hsuffix.
    unfold walkStep. cbn [html]. rewrite append_assoc. eexists. reflexivity.
Qed.

(** X2: the markup of a fragment starts with the markup of each of its
    initial parts: when the reduction returns over blocks followed by more
    blocks, it returns over the first blocks alone, and the markup of the
    whole is that markup followed by what the other blocks add; when it
    throws over the first blocks, it throws over the whole. *)
Theorem markup_extends_with_blocks (outerHTML : Node -> string)
    (shorter longer : ContentState) (elementMap : gmap string Node)
    (more : list ContentBlock) :
  getBlocksAsArray longer = (getBlocksAsArray shorter ++ more)%list ->
  match inner outerHTML shorter elementMap with
  | Normal acc1 =>
      forall acc,
        inner outerHTML longer elementMap = Normal acc ->
        exists suffix, html acc = html acc1 +:+ suffix
  | Throw err => inner outerHTML longer elementMap = Throw err
  end.
Proof.
  intros Hblocks. unfold inner. rewrite Hblocks, reduce_app.
  rewrite (reduce_any_content outerHTML longer shorter).
  destruct (reduce (reduceBlock outerHTML shorter elementMap) (getBlocksAsArray shorter)
              {| lastIndentation := 0; html := "" |}) as [acc1|err]; [|reflexivity].
  intros acc Hacc. exact (reduce_html_extends _ _ _ _ _ _ Hacc).
Qed.

Lemma markup_extends_with_blocks_witness :
  exists suffix,
    "<div>one</div><ul><ul><li><div>two</div></li>" = "<div>one</div>" +:+ suffix.
Proof.
  exact (markup_extends_with_blocks serializeNode
           {| getBlockMap := [blockA None] |}
           {| getBlockMap := [blockA None; blockB (Some 2%Z)] |} elementsAB
           [blockB (Some 2%Z)] eq_refl
           {| lastIndentation := 2;
              html := "<div>one</div><ul><ul><li><div>two</div></li>" |} eq_refl).
Defined.

(** ** List items *)

Lemma count_repeat_zero (pat tag : string) (n : nat) :
  gtOnlyLast pat = true ->
  endsWithGt tag = true ->
  countOccurrences pat tag = 0%nat ->
  countOccurrences pat (repeatN tag n) = 0%nat /\ closedEnd (repeatN tag n).
Proof.
  intros Hpat Htag Hzero. induction n as [|n [IHn IHc]]; [split; [|left]; reflexivity|].
  cbn [repeatN]. split.
  - rewrite count_app by (exact Hpat || (right; exact Htag)). lia.
  - apply closedEnd_app; [right; exact Htag | exact IHc].
Qed.

(** One step of the walk adds one occurrence of a list item tag when the
    block is wrapped and none otherwise. *)
Lemma walkStep_items (pat : string) (wraps : Z -> bool) (acc : Acc) (d : Z) (m : string) :
  gtOnlyLast pat = true ->
  countOccurrences pat "<ul>" = 0%nat ->
  countOccurrences pat "</ul>" = 0%nat ->
  (countOccurrences pat "<li>" + countOccurrences pat "</li>" = 1)%nat ->
  closedEnd (html acc) ->
  endsWithGt m = true ->
  countOccurrences pat m = 0%nat ->
  closedEnd (html (walkStep wraps acc (d, m)))
  /\ countOccurrences pat (html (walkStep wraps acc (d, m))) =
       (countOccurrences pat (html acc) + if wraps d then 1 else 0)%nat.
Proof.
  intros Hpat Hopen Hclose Hitem Hacc Hgt Hm. unfold walkStep. cbn [fst snd html].
  set (item := if wraps d then "<li>" +:+ m +:+ "</li>" else m).
  assert (Hitemgt : endsWithGt item = true).
  { unfold item. destruct (wraps d); [|exact Hgt].
    apply endsWithGt_app, endsWithGt_app. reflexivity. }
  assert (Hcount : countOccurrences pat item = if wraps d then 1%nat else 0%nat).
  { unfold item. destruct (wraps d); [|exact Hm].
    rewrite count_app by (exact Hpat || (right; reflexivity)).
    rewrite count_app by (exact Hpat || (right; exact Hgt)). lia. }
  set (sunk := (d - lastIndentation acc)%Z).
  rewrite count_app by (exact Hpat || exact Hacc).
  destruct (Z.compare_spec sunk 0) as [H | H | H].
  - split; [apply closedEnd_app; [exact Hacc | right; exact Hitemgt] | lia].
  - destruct (count_repeat_zero pat "</ul>" (Z.abs_nat sunk) Hpat eq_refl Hclose)
      as [Hzero Hc].
    split; [apply closedEnd_app; [exact Hacc | right; apply endsWithGt_app, Hitemgt]|].
    rewrite count_app by (exact Hpat || exact Hc). lia.
  - destruct (count_repeat_zero pat "<ul>" (Z.abs_nat sunk) Hpat eq_refl Hopen)
      as [Hzero Hc].
    split; [apply closedEnd_app; [exact Hacc | right; apply endsWithGt_app, Hitemgt]|].
    rewrite count_app by (exact Hpat || exact Hc). lia.
Qed.

Lemma reduce_items (outerHTML : Node -> string) (content : ContentState)
    (elementMap : gmap string Node) (blocks : list ContentBlock) (acc : Acc) :
  closedEnd (html acc) ->
  Forall (fun b => itemFree outerHTML elementMap b = true) blocks ->
  exists acc',
    reduce (reduceBlock outerHTML content elementMap) blocks acc = Normal acc'
    /\ countOccurrences "<li>" (html acc') =
         (countOccurrences "<li>" (html acc) + wrappedBlocks blocks)%nat
    /\ countOccurrences "</li>" (html acc') =
         (countOccurrences "</li>" (html acc) + wrappedBlocks blocks)%nat.
Proof.
  revert acc. induction blocks as [|b blocks IH]; intros acc Hc Hall.
  - exists acc. unfold wrappedBlocks. cbn. rewrite !Nat.add_0_r. repeat split.
  - apply Forall_cons in Hall as [Hb Hall].
    cbn [reduce]. rewrite reduceBlock_walkStep.
    unfold itemFree in Hb. unfold indentAndMarkup.
    destruct (elementMap !! getKey b) as [e|]; [|discriminate].
    unfold itemFreeMarkup in Hb.
    apply andb_prop in Hb as [Hb Hclose]. apply andb_prop in Hb as [Hgt Hopen].
    apply Nat.eqb_eq in Hopen, Hclose.
    destruct (walkStep_items "<li>" truthy acc (getIndent b) (outerHTML e)
                eq_refl eq_refl eq_refl eq_refl Hc Hgt Hopen) as [Hc1 Hopen1].
    destruct (walkStep_items "</li>" truthy acc (getIndent b) (outerHTML e)
                eq_refl eq_refl eq_refl eq_refl Hc Hgt Hclose) as [_ Hclose1].
    destruct (IH _ Hc1 Hall) as (acc' & Hred & Ho & Hcl).
    exists acc'. split; [exact Hred|].
    rewrite Ho, Hcl, Hopen1, Hclose1. unfold wrappedBlocks. cbn [List.filter].
    destruct (truthy (getIndent b)); cbn [length]; lia.
Qed.

(** X4: every block whose indent is not zero becomes one list item and no
    other block does: when the markup of the blocks' elements ends a tag
    and has no list item tag of its own, the markup returned has as many
    opening list item tags, and as many closing ones, as there are blocks
    of indent other than zero. *)
Theorem one_list_item_per_indented_block (outerHTML : Node -> string)
    (content : ContentState) (elementMap : gmap string Node) :
  Forall (fun b => itemFree outerHTML elementMap b = true) (getBlocksAsArray content) ->
  exists acc,
    inner outerHTML content elementMap = Normal acc
    /\ countOccurrences "<li>" (html acc) = wrappedBlocks (getBlocksAsArray content)
    /\ countOccurrences "</li>" (html acc) = wrappedBlocks (getBlocksAsArray content).
Proof.
  intros Hall.
  destruct (reduce_items outerHTML content elementMap (getBlocksAsArray content)
              {| lastIndentation := 0; html := "" |}) as (acc & Hred & Ho & Hc);
    [left; reflexivity | exact Hall |].
  exists acc. split; [exact Hred|]. split; assumption.
Qed.

Lemma one_list_item_per_indented_block_witness :
  exists acc,
    inner serializeNode {| getBlockMap := [blockA None; blockB (Some 2%Z)] |} elementsAB
      = Normal acc
    /\ countOccurrences "<li>" (html acc) = 1%nat
    /\ countOccurrences "</li>" (html acc) = 1%nat.
Proof.
  apply (one_list_item_per_indented_block serializeNode
           {| getBlockMap := [blockA None; blockB (Some 2%Z)] |} elementsAB).
  repeat constructor.
Defined.

(** ** The selected keys and the key map at their edges *)

Lemma skipUntil_head {A : Type} (p : A -> bool) (l : list A) (x : A) (rest : list A) :
  skipUntil p l = x :: rest -> p x = true.
Proof.
  induction l as [|y l IH]; cbn; [discriminate|].
  destruct (p y) eqn:Hy; [|exact IH]. intros H. injection H as -> _. exact Hy.
Qed.

Lemma skipUntil_split {A : Type} (p : A -> bool) (l : list A) :
  exists before,
    l = (before ++ skipUntil p l)%list /\ Forall (fun x => p x = false) before.
Proof.
  induction l as [|y l (before & Hl & Hbefore)]; [exists []; split; [reflexivity | constructor]|].
  cbn [skipUntil]. destruct (p y) eqn:Hy.
  - exists []. split; [reflexivity | constructor].
  - exists (y :: before). split; [cbn [app]; f_equal; exact Hl|].
    constructor; assumption.
Qed.

Lemma takeUntil_split {A : Type} (p : A -> bool) (l : list A) :
  exists after,
    l = (takeUntil p l ++ after)%list
    /\ Forall (fun x => p x = false) (takeUntil p l)
    /\ (after = [] \/ exists x, head after = Some x /\ p x = true).
Proof.
  induction l as [|y l (after & Hl & Htaken & Hafter)].
  - exists []. split; [reflexivity|]. split; [constructor | left; reflexivity].
  - cbn [takeUntil]. destruct (p y) eqn:Hy.
    + exists (y :: l). split; [reflexivity|]. split; [constructor|].
      right. exists y. split; [reflexivity | exact Hy].
    + exists after. split; [cbn [app]; f_equal; exact Hl|].
      split; [constructor; assumption | exact Hafter].
Qed.

(** X5: the selected keys are a run of consecutive keys of the document
    followed by the end key, whatever the document and the selection.  The
    document's keys are some keys without the start key, then the run,
    then the other keys; the run and the other keys, if there are any,
    start with the start key, so the run starts at the first place of the
    start key; the run is without the end key and the other keys, if
    there are any, start with it, so the run stops before the first place
    of the end key from there on, or at the end of the document.  The end
    key is listed after the run even when the document does not have it. *)
Theorem selectedBlockKeys_end_with_the_end_key (editorState : EditorState)
    (selection : SelectionState) :
  exists before body after,
    keySeq (getBlockMap (getCurrentContent editorState)) = (before ++ body ++ after)%list
    /\ selectedBlockKeysOf editorState selection = (body ++ [getEndKey selection])%list
    /\ (getStartKey selection ∉ before)
    /\ ((body ++ after)%list = []
        \/ head (body ++ after)%list = Some (getStartKey selection))
    /\ (getEndKey selection ∉ body)
    /\ (after = [] \/ head after = Some (getEndKey selection)).
Proof.
  unfold selectedBlockKeysOf.
  set (keys := keySeq (getBlockMap (getCurrentContent editorState))).
  set (isStart := fun item => bool_decide (item = getStartKey selection)).
  set (isEnd := fun item => bool_decide (item = getEndKey selection)).
  destruct (skipUntil_split isStart keys) as (before & Hkeys & Hbefore).
  destruct (takeUntil_split isEnd (skipUntil isStart keys))
    as (after & Hrest & Hbody & Hafter).
  exists before, (takeUntil isEnd (skipUntil isStart keys)), after.
  split; [rewrite <- Hrest; exact Hkeys|]. split; [reflexivity|].
  split; [|split; [|split]].
  - intros Hin. rewrite Forall_forall in Hbefore. specialize (Hbefore _ Hin).
    unfold isStart in Hbefore. apply bool_decide_eq_false in Hbefore.
    apply Hbefore. reflexivity.
  - rewrite <- Hrest.
    destruct (skipUntil isStart keys) as [|x rest] eqn:Hskip; [left; reflexivity|].
    right. apply skipUntil_head in Hskip. unfold isStart in Hskip.
    apply bool_decide_eq_true in Hskip. subst x. reflexivity.
  - intros Hin. rewrite Forall_forall in Hbody. specialize (Hbody _ Hin).
    unfold isEnd in Hbody. apply bool_decide_eq_false in Hbody.
    apply Hbody. reflexivity.
  - destruct Hafter as [-> | (x & Hhead & Hx)]; [left; reflexivity|].
    right. unfold isEnd in Hx. apply bool_decide_eq_true in Hx. subst x. exact Hhead.
Qed.

(** The reduction that builds [keyMap], over more live keys than there are
    fragment keys left: the live keys past the fragment's end all go under
    the property [undefined], the last of them staying. *)
Lemma keyMap_overflow (fragmentKeys : list string) (liveKeys : list string)
    (x : string) (n : nat) (acc : gmap string string) :
  (length fragmentKeys < n + S (length liveKeys))%nat ->
  reduceIndexed
    (fun acc item index => <[toPropertyKey (fragmentKeys !! index) := item]> acc)
    (x :: liveKeys) n acc !! "undefined" = last (x :: liveKeys).
Proof.
  revert x n acc. induction liveKeys as [|y liveKeys IH]; intros x n acc Hlen.
  - cbn [reduceIndexed length] in *.
    rewrite (lookup_ge_None_2 fragmentKeys n) by lia. apply lookup_insert_eq.
  - cbn [reduceIndexed]. cbn [reduceIndexed] in IH.
    rewrite IH by (cbn [length] in *; lia). reflexivity.
Qed.

(** X6: when the fragment and the live range differ in length the key map
    is built all the same: with more live keys than fragment keys, the live
    keys past the fragment's end are all assigned to the property
    [undefined], of which the last one stays; with fewer live keys, a
    fragment key past the live range has no entry of its own, and its
    selector is made from what [Object.prototype] holds under its name,
    which is [undefined] when it holds nothing, as for a key the editor
    generates. *)
Theorem keyMap_at_unequal_lengths (selectedBlockKeys fragmentKeys : list string) :
  ((length fragmentKeys < length selectedBlockKeys)%nat ->
   keyMapOf selectedBlockKeys fragmentKeys !! "undefined" = last selectedBlockKeys)
  /\ (NoDup fragmentKeys ->
      forall (j : nat) (fragmentKey : string),
        fragmentKeys !! j = Some fragmentKey ->
        (length selectedBlockKeys <= j)%nat ->
        keyMapOf selectedBlockKeys fragmentKeys !! fragmentKey = None
        /\ readProperty (keyMapOf selectedBlockKeys fragmentKeys) fragmentKey =
             toPropertyKey (getAttr fragmentKey objectPrototype)
        /\ (getAttr fragmentKey objectPrototype = None ->
            readProperty (keyMapOf selectedBlockKeys fragmentKeys) fragmentKey =
              "undefined")).
Proof.
  split.
  - intros Hlen. destruct selectedBlockKeys as [|x liveKeys]; [cbn in Hlen; lia|].
    apply keyMap_overflow. cbn [length] in Hlen. lia.
  - intros Hnodup j fk Hj Hlen.
    assert (Hnone : keyMapOf selectedBlockKeys fragmentKeys !! fk = None).
    { unfold keyMapOf.
      rewrite (keyMap_reduction _ Hnodup _ 0 ∅ j fk);
        [|pose proof (lookup_lt_Some _ _ _ Hj); lia | exact Hj].
      rewrite decide_True by lia. rewrite Nat.sub_0_r.
      rewrite (lookup_ge_None_2 selectedBlockKeys j) by lia. apply lookup_empty. }
    split; [exact Hnone|]. unfold readProperty. rewrite Hnone.
    split; [reflexivity|]. intros ->. reflexivity.
Qed.

Lemma keyMap_at_unequal_lengths_witness :
  keyMapOf ["p"; "q"; "r"] ["a"] !! "undefined" = Some "r"
  /\ readProperty (keyMapOf ["q"] ["a"; "b"]) "b" = "undefined"
  /\ readProperty (keyMapOf ["q"] ["a"; "constructor"]) "constructor" =
       "function Object() { [native code] }".
Proof.
  split; [|split].
  - apply (proj1 (keyMap_at_unequal_lengths ["p"; "q"; "r"] ["a"])). cbn. lia.
  - apply (proj2 (keyMap_at_unequal_lengths ["q"] ["a"; "b"]) ltac:(decided) 1%nat "b");
      [reflexivity | cbn; lia | reflexivity].
  - destruct (proj2 (keyMap_at_unequal_lengths ["q"] ["a"; "constructor"])
                ltac:(decided) 1%nat "constructor" eq_refl ltac:(cbn; lia))
      as (_ & Hread & _).
    rewrite Hread. reflexivity.
Defined.

(** ** The compiled builds *)

Lemma assignProperty_lookup (obj : gmap string string) (key value k : string) :
  assignProperty obj key value !! k =
    if decide (key = k) then
      match obj !! k with
      | Some _ => Some value
      | None => if decide (k = "__proto__") then None else Some value
      end
    else obj !! k.
Proof.
  unfold assignProperty. destruct (decide (key = k)) as [-> | Hne].
  - destruct (obj !! k) eqn:Hk; [apply lookup_insert_eq|].
    destruct (decide (k = "__proto__")) as [-> | Hproto].
    + rewrite bool_decide_eq_true_2 by reflexivity. exact Hk.
    + rewrite bool_decide_eq_false_2 by exact Hproto. apply lookup_insert_eq.
  - destruct (obj !! key); [apply lookup_insert_ne, Hne|].
    destruct (bool_decide (key = "__proto__")); [reflexivity|].
    apply lookup_insert_ne, Hne.
Qed.

(** Assigning the own properties of a source to a target that has no own
    [__proto__]: the target takes them all but [__proto__]. *)
Lemma map_fold_assign_lookup (target source : gmap string string) (k : string) :
  target !! "__proto__" = None ->
  map_fold (fun key value t => assignProperty t key value) target source !! k =
    match source !! k with
    | Some v => if decide (k = "__proto__") then None else Some v
    | None => target !! k
    end.
Proof.
  intros Htarget. revert k.
  apply (map_fold_weak_ind
           (fun r (m : gmap string string) =>
              forall k,
                r !! k =
                  match m !! k with
                  | Some v => if decide (k = "__proto__") then None else Some v
                  | None => target !! k
                  end)).
  - intros k. rewrite lookup_empty. reflexivity.
  - intros i x m r Hi IH k. rewrite assignProperty_lookup.
    destruct (decide (i = k)) as [-> | Hne].
    + rewrite lookup_insert_eq, IH, Hi.
      destruct (decide (k = "__proto__")) as [-> | Hproto].
      * rewrite Htarget. reflexivity.
      * destruct (target !! k); reflexivity.
    + rewrite lookup_insert_ne by exact Hne. apply IH.
Qed.

Lemma defineProperty_empty (key value : string) :
  _defineProperty ∅ key value = {[key := value]}.
Proof.
  unfold _defineProperty. destruct (hasProperty (∅ : gmap string string) key) eqn:Hhas;
    [reflexivity|].
  unfold assignProperty. rewrite lookup_empty.
  destruct (bool_decide (key = "__proto__")) eqn:Hproto; [|reflexivity].
  apply bool_decide_eq_true in Hproto. subst key. discriminate Hhas.
Qed.

Lemma extends_defineProperty (acc : gmap string string) (key value : string) :
  _extends ∅ [acc; _defineProperty ∅ key value] =
    if decide (key = "__proto__") then delete "__proto__" acc
    else <[key := value]> (delete "__proto__" acc).
Proof.
  assert (Hfirst : map_fold (fun key value t => assignProperty t key value) ∅ acc =
                   delete "__proto__" acc).
  { apply map_eq. intros k. rewrite map_fold_assign_lookup by apply lookup_empty.
    rewrite lookup_empty. destruct (decide (k = "__proto__")) as [-> | Hne].
    - rewrite lookup_delete_eq. destruct (acc !! "__proto__"); reflexivity.
    - rewrite lookup_delete_ne by congruence. destruct (acc !! k); reflexivity. }
  unfold _extends. cbn [fold_left]. rewrite Hfirst, defineProperty_empty.
  apply map_eq. intros k.
  rewrite map_fold_assign_lookup by apply lookup_delete_eq.
  destruct (decide (key = k)) as [-> | Hne].
  - rewrite lookup_singleton_eq.
    destruct (decide (k = "__proto__")) as [-> | Hproto].
    + rewrite lookup_delete_eq. reflexivity.
    + rewrite lookup_insert_eq. reflexivity.
  - rewrite lookup_singleton_ne by exact Hne.
    destruct (decide (key = "__proto__")); [reflexivity|].
    rewrite lookup_insert_ne by exact Hne. reflexivity.
Qed.

Lemma keyMap_compiled_reduction (fragmentKeys selectedBlockKeys : list string)
    (index : nat) (acc : gmap string string) :
  reduceIndexed
    (fun acc item index =>
       _extends ∅ [acc; _defineProperty ∅ (toPropertyKey (fragmentKeys !! index)) item])
    selectedBlockKeys index (delete "__proto__" acc) =
  delete "__proto__"
    (reduceIndexed
       (fun acc item index => <[toPropertyKey (fragmentKeys !! index) := item]> acc)
       selectedBlockKeys index acc).
Proof.
  revert index acc. induction selectedBlockKeys as [|item rest IH]; intros index acc;
    [reflexivity|].
  cbn [reduceIndexed]. rewrite extends_defineProperty, <- IH. f_equal.
  apply map_eq. intros k.
  destruct (decide (toPropertyKey (fragmentKeys !! index) = "__proto__")) as [Hkey | Hkey].
  - rewrite Hkey. destruct (decide (k = "__proto__")) as [-> | Hk].
    + rewrite !lookup_delete_eq. reflexivity.
    + rewrite !lookup_delete_ne, lookup_insert_ne by congruence. reflexivity.
  - destruct (decide (k = "__proto__")) as [-> | Hk].
    + rewrite lookup_insert_ne, !lookup_delete_eq by exact Hkey. reflexivity.
    + rewrite lookup_delete_ne by congruence.
      destruct (decide (toPropertyKey (fragmentKeys !! index) = k)) as [<- | Hne].
      * rewrite !lookup_insert_eq. reflexivity.
      * rewrite !lookup_insert_ne, !lookup_delete_ne by congruence. reflexivity.
Qed.

(** X7: the compiled builds write the step of the key map with their
    helpers, [_extends({}, acc, _defineProperty({}, key, value))].  The
    helper defines [value] under [key] as an own property, whatever the
    key; the copy into the new object assigns, and an assignment to
    [__proto__] sets no property.  So the step gives the accumulator with
    [value] under [key] for every key but [__proto__], and the key map of
    the compiled builds is that of the object spread of [editOnCut.js]
    without its entry for [__proto__]: the two are the same whenever the
    spread has no such entry, and the compiled one never has it. *)
Theorem compiled_key_map_loses_only_proto (selectedBlockKeys fragmentKeys : list string) :
  (forall (acc : gmap string string) key value,
     acc !! "__proto__" = None ->
     key <> "__proto__" ->
     _extends ∅ [acc; _defineProperty ∅ key value] = <[key := value]> acc)
  /\ (forall (acc : gmap string string) value,
        _extends ∅ [acc; _defineProperty ∅ "__proto__" value] !! "__proto__" = None)
  /\ keyMapOf_compiled selectedBlockKeys fragmentKeys =
       delete "__proto__" (keyMapOf selectedBlockKeys fragmentKeys)
  /\ (keyMapOf selectedBlockKeys fragmentKeys !! "__proto__" = None ->
      keyMapOf_compiled selectedBlockKeys fragmentKeys =
        keyMapOf selectedBlockKeys fragmentKeys).
Proof.
  assert (Hmaps : keyMapOf_compiled selectedBlockKeys fragmentKeys =
                  delete "__proto__" (keyMapOf selectedBlockKeys fragmentKeys)).
  { unfold keyMapOf_compiled, keyMapOf.
    rewrite <- keyMap_compiled_reduction, delete_empty. reflexivity. }
  split; [|split; [|split]].
  - intros acc key value Hacc Hkey. rewrite extends_defineProperty.
    rewrite decide_False by exact Hkey. rewrite delete_id by exact Hacc. reflexivity.
  - intros acc value. rewrite extends_defineProperty.
    rewrite decide_True by reflexivity. apply lookup_delete_eq.
  - exact Hmaps.
  - intros Hnone. rewrite Hmaps. apply delete_id, Hnone.
Qed.

Lemma compiled_key_map_loses_only_proto_witness :
  keyMapOf_compiled ["q"; "r"] ["a"; "b"] = keyMapOf ["q"; "r"] ["a"; "b"]
  /\ keyMapOf ["q"; "r"] ["a"; "__proto__"] !! "__proto__" = Some "r"
  /\ keyMapOf_compiled ["q"; "r"] ["a"; "__proto__"] !! "__proto__" = None.
Proof.
  split; [|split].
  - apply (compiled_key_map_loses_only_proto ["q"; "r"] ["a"; "b"]).
    vm_compute. reflexivity.
  - vm_compute. reflexivity.
  - destruct (compiled_key_map_loses_only_proto ["q"; "r"] ["a"; "__proto__"])
      as (_ & _ & Hmaps & _).
    rewrite Hmaps. apply lookup_delete_eq.
Defined.

(** ** The captured selection *)

(** X8: what the handlers write as the first markup of the clipboard has no
    descendant with [contenteditable=false], whatever the selection holds;
    and an element that the remapper finds in the capture for a fragment
    key is not such a node and has none inside it, so that no such node
    comes into the reconstruction through the capture. *)
Theorem capture_has_no_uneditable_node (parseHTML : string -> list Node)
    (deep : bool) (serialisedContent : string) (contents : list Node)
    (fragment : BlockMap) (keyMap : gmap string string) :
  querySelector matchesNotEditable (clonedSelection deep serialisedContent contents) = None
  /\ (forall item element,
        querySelector (matchesBlock (readProperty keyMap item))
          (clonedSelection deep serialisedContent contents) = Some element ->
        elementFor parseHTML fragment keyMap
          (clonedSelection deep serialisedContent contents) item = element
        /\ findFirst matchesNotEditable element = None).
Proof.
  assert (Hclean : querySelector matchesNotEditable
                     (clonedSelection deep serialisedContent contents) = None).
  { unfold clonedSelection.
    apply (removeAll_clean matchesNotEditable _ matchesNotEditable_attributeSelector). }
  split; [exact Hclean|]. intros item element Hquery. split.
  - unfold elementFor. rewrite Hquery. reflexivity.
  - exact (querySelector_inside _ _ _ _ Hclean Hquery).
Qed.

Lemma capture_has_no_uneditable_node_witness :
  elementFor parseMarkup fragmentAB
    (keyMapOf (selectedBlockKeysOf liveDocument selectionQR) (keySeq fragmentAB))
    (clonedSelection true "[ab]" paintedSelection) "a" = renderedBlock "q" "text of q"
  /\ findFirst matchesNotEditable (renderedBlock "q" "text of q") = None.
Proof.
  destruct (capture_has_no_uneditable_node parseMarkup true "[ab]" paintedSelection
              fragmentAB
              (keyMapOf (selectedBlockKeysOf liveDocument selectionQR)
                 (keySeq fragmentAB))) as [_ H].
  apply (H "a" (renderedBlock "q" "text of q")). vm_compute. reflexivity.
Defined.

(** X9: under the conditions of the zip (distinct fragment keys, as many
    live keys), the element map gives the fragment's key of each index
    either an element of the capture that is marked as a block and carries
    the offset key of the live key of that index, or, when the capture has
    no such element, a new [div] without attributes; when the text of the
    fragment block has no markup in it, which a parser reads as one text
    node, that [div] holds the text and nothing else. *)
Theorem element_map_follows_the_live_keys (serialise : ContentState -> string)
    (parseHTML : string -> list Node) (editorState : EditorState)
    (selection : SelectionState) (fragment : BlockMap) (contents : list Node)
    (i : nat) (fragmentKey liveKey : string) :
  (forall s, markupFree s = true -> parseHTML s = textNodes s) ->
  NoDup (keySeq fragment) ->
  length (keySeq fragment) = length (selectedBlockKeysOf editorState selection) ->
  keySeq fragment !! i = Some fragmentKey ->
  selectedBlockKeysOf editorState selection !! i = Some liveKey ->
  exists element,
    elementMapOf serialise parseHTML editorState selection fragment contents
      !! fragmentKey = Some element
    /\ (getAttribute "data-block" element = Some "true"
        /\ getAttribute "data-offset-key" element = Some (liveKey +:+ "-0-0")
        /\ querySelector (matchesBlock liveKey)
             (clonedSelection true (serialise (createFromBlockArray (toArray fragment)))
                contents) = Some element
        \/ querySelector (matchesBlock liveKey)
             (clonedSelection true (serialise (createFromBlockArray (toArray fragment)))
                contents) = None
           /\ (exists children,
                 element = Element "div" [] children
                 /\ (markupFree (getInText fragment fragmentKey) = true ->
                     children = textNodes (getInText fragment fragmentKey)))).
Proof.
  intros Hparser Hnodup Hlen Hfk Hlk. unfold elementMapOf.
  rewrite blockKeyToElementMap_lookup,
    decide_True by (apply list_elem_of_lookup; eauto).
  eexists. split; [reflexivity|]. unfold elementFor.
  assert (Hmap : keyMapOf (selectedBlockKeysOf editorState selection) (keySeq fragment)
                   !! fragmentKey = Some liveKey).
  { unfold keyMapOf.
    rewrite (keyMap_reduction _ Hnodup _ 0 ∅ i fragmentKey) by (assumption || lia).
    rewrite decide_True by lia. rewrite Nat.sub_0_r, Hlk. reflexivity. }
  unfold readProperty. rewrite Hmap.
  destruct (querySelector (matchesBlock liveKey)
              (clonedSelection true (serialise (createFromBlockArray (toArray fragment)))
                 contents)) as [element|] eqn:Hquery.
  - left. pose proof (querySelector_sound _ _ _ Hquery) as Hmatch.
    unfold matchesBlock, hasAttrValue in Hmatch.
    apply andb_prop in Hmatch as [Hblock Hkey].
    apply bool_decide_eq_true in Hblock, Hkey. repeat split; assumption || reflexivity.
  - right. split; [reflexivity|].
    exists (parseHTML (getInText fragment fragmentKey)). split; [reflexivity|].
    apply Hparser.
Qed.

Lemma element_map_follows_the_live_keys_witness :
  elementMapOf serialiseKeys parseMarkup liveDocument selectionQR fragmentAB
    paintedSelection !! "b" = Some (Element "div" [] [Text "two"]).
Proof.
  destruct (element_map_follows_the_live_keys serialiseKeys parseMarkup liveDocument
              selectionQR fragmentAB paintedSelection 1 "b" "r"
              parseMarkup_text ltac:(decided) eq_refl eq_refl eq_refl)
    as (element & Hmap & [(_ & _ & Hfound) | (_ & children & -> & Hchildren)]).
  - vm_compute in Hfound. discriminate Hfound.
  - rewrite Hmap, (Hchildren eq_refl). reflexivity.
Defined.

(** ** How the handlers end, and what they leave alone *)

Section HandlerFrame.

Variable getFragmentFromSelection : EditorState -> option BlockMap.
Variable serialise : ContentState -> string.
Variable removeRange :
  ContentState -> SelectionState -> RemovalDirection -> ContentState.
Variable push : EditorState -> ContentState -> EditorChangeType -> EditorState.
Variable getScrollPosition : Node -> ScrollPosition.
Variable outerHTML : Node -> string.
Variable parseHTML : string -> list Node.

(** The guarded block, whatever the world: it throws when the selection has
    no range and leaves the world as it was, it returns otherwise with the
    three items written and the default action prevented. *)
Lemma writePayload_cases (editorState : EditorState) (fragment : option BlockMap)
    (w : World) :
  match clipboardData (event w), fragment, rangeContents (domSelection w) with
  | Some items, Some blocks, Some contents =>
      exists acc,
        inner outerHTML (createFromBlockArray (toArray blocks))
          (elementMapOf serialise parseHTML editorState (getSelection editorState)
             blocks contents) = Normal acc
        /\ writePayload serialise outerHTML parseHTML editorState fragment w =
             (Normal tt,
              populatedWorld w items (selectionText (domSelection w))
                (outerHTML
                   (clonedSelection true
                      (serialise (createFromBlockArray (toArray blocks))) contents))
                (outerHTML
                   (outputElementOf parseHTML
                      (serialise (createFromBlockArray (toArray blocks))) (html acc))))
  | Some _, Some _, None =>
      writePayload serialise outerHTML parseHTML editorState fragment w =
        (Throw IndexSizeError, w)
  | _, _, _ =>
      writePayload serialise outerHTML parseHTML editorState fragment w = (Normal tt, w)
  end.
Proof.
  unfold writePayload.
  destruct (clipboardData (event w)) as [items|] eqn:Hdata; [|reflexivity].
  destruct fragment as [blocks|]; [|reflexivity].
  destruct (rangeContents (domSelection w)) as [contents|] eqn:Hrange.
  - destruct (inner_returns outerHTML parseHTML blocks
                (keyMapOf (selectedBlockKeysOf editorState (getSelection editorState))
                   (keySeq blocks))
                (clonedSelection true
                   (serialise (createFromBlockArray (toArray blocks))) contents))
      as [acc Hacc].
    exists acc. split; [exact Hacc|].
    apply (populateClipboardData_normal serialise outerHTML parseHTML _ _ _ w items
             contents acc); assumption.
  - apply populateClipboardData_no_range, Hrange.
Qed.

Lemma editOnCopy_writePayload (w : World) :
  isCollapsed (getSelection (_latestEditorState (editor w))) = false ->
  editOnCopy getFragmentFromSelection serialise outerHTML parseHTML w =
    writePayload serialise outerHTML parseHTML (_latestEditorState (editor w))
      (getFragmentFromSelection (_latestEditorState (editor w)))
      (cachedWorld w (getFragmentFromSelection (_latestEditorState (editor w)))).
Proof.
  intros Hsel. rewrite (editOnCopy_selected _ _ _ _ w Hsel). reflexivity.
Qed.

Lemma editOnCut_writePayload (w : World) :
  isCollapsed (getSelection (_latestEditorState (editor w))) = false ->
  editOnCut getFragmentFromSelection serialise getScrollPosition outerHTML parseHTML w =
    writePayload serialise outerHTML parseHTML (_latestEditorState (editor w))
      (getFragmentFromSelection (_latestEditorState (editor w)))
      (cutWorld w (getFragmentFromSelection (_latestEditorState (editor w)))
         (recoveryOf getScrollPosition w)).
Proof.
  intros Hsel. rewrite (editOnCut_selected _ _ _ _ _ w Hsel). reflexivity.
Qed.

(** X10: a copy with a selection, a [clipboardData] and a fragment, while
    the selection of the window has no range.  Both builds of [editOnCopy]
    throw the [IndexSizeError] of [getRangeAt(0)] after the one call that
    fills the cache with the fragment: nothing is written on the clipboard
    of the event, the default action is not prevented, and the editor's
    state and mode and the timer queue are as they were. *)
Theorem copy_without_range_fills_only_the_cache (w : World)
    (items : gmap string string) (blocks : BlockMap) :
  isCollapsed (getSelection (_latestEditorState (editor w))) = false ->
  clipboardData (event w) = Some items ->
  getFragmentFromSelection (_latestEditorState (editor w)) = Some blocks ->
  rangeContents (domSelection w) = None ->
  forall ended,
    ended = editOnCopy getFragmentFromSelection serialise outerHTML parseHTML w
    \/ ended = editOnCopy_part001 getFragmentFromSelection serialise outerHTML w ->
    fst ended = Throw IndexSizeError
    /\ log (snd ended) = (log w ++ [SetClipboard (Some blocks)])%list
    /\ _clipboard (editor (snd ended)) = Some blocks
    /\ event (snd ended) = event w
    /\ _latestEditorState (editor (snd ended)) = _latestEditorState (editor w)
    /\ mode (editor (snd ended)) = mode (editor w)
    /\ timers (snd ended) = timers w.
Proof.
  intros Hsel Hdata Hfragment Hrange ended Hended.
  assert (Hcopy : editOnCopy getFragmentFromSelection serialise outerHTML parseHTML w =
                  (Throw IndexSizeError, cachedWorld w (Some blocks))).
  { rewrite (editOnCopy_writePayload w Hsel), Hfragment.
    pose proof (writePayload_cases (_latestEditorState (editor w)) (Some blocks)
                  (cachedWorld w (Some blocks))) as H.
    cbn [cachedWorld event domSelection] in H. rewrite Hdata, Hrange in H. exact H. }
  assert (Hpart : editOnCopy_part001 getFragmentFromSelection serialise outerHTML w =
                  (Throw IndexSizeError, cachedWorld w (Some blocks))).
  { rewrite (editOnCopy_part001_selected _ _ _ w Hsel). cbn zeta.
    rewrite Hdata, Hfragment, Hrange. reflexivity. }
  destruct Hended as [-> | ->]; rewrite ?Hcopy, ?Hpart; repeat split.
Qed.


(** X12: whatever the world, a cut ends as a copy of the same world ends
    and leaves the same event (the same items on its clipboard, the default
    action prevented or not alike) and the same clipboard cache; at the
    return of either the editor still holds the state it held. *)
Theorem cut_writes_what_copy_writes (w : World) :
  let copied := editOnCopy getFragmentFromSelection serialise outerHTML parseHTML w in
  let cut :=
    editOnCut getFragmentFromSelection serialise getScrollPosition outerHTML parseHTML w in
  fst cut = fst copied
  /\ event (snd cut) = event (snd copied)
  /\ _clipboard (editor (snd cut)) = _clipboard (editor (snd copied))
  /\ _latestEditorState (editor (snd cut)) = _latestEditorState (editor w)
  /\ _latestEditorState (editor (snd copied)) = _latestEditorState (editor w).
Proof.
  cbn zeta.
  destruct (isCollapsed (getSelection (_latestEditorState (editor w)))) eqn:Hsel.
  - rewrite (editOnCopy_collapsed _ _ _ _ w Hsel), (editOnCut_collapsed _ _ _ _ _ w Hsel).
    repeat split.
  - rewrite (editOnCopy_writePayload w Hsel), (editOnCut_writePayload w Hsel).
    pose proof (writePayload_cases (_latestEditorState (editor w))
                  (getFragmentFromSelection (_latestEditorState (editor w)))
                  (cachedWorld w (getFragmentFromSelection (_latestEditorState (editor w)))))
      as Hcopy.
    pose proof (writePayload_cases (_latestEditorState (editor w))
                  (getFragmentFromSelection (_latestEditorState (editor w)))
                  (cutWorld w (getFragmentFromSelection (_latestEditorState (editor w)))
                     (recoveryOf getScrollPosition w)))
      as Hcut.
    cbn [cachedWorld cutWorld event domSelection] in Hcopy, Hcut.
    destruct (clipboardData (event w)) as [items|];
      [|rewrite Hcopy, Hcut; repeat split].
    destruct (getFragmentFromSelection (_latestEditorState (editor w))) as [blocks|];
      [|rewrite Hcopy, Hcut; repeat split].
    destruct (rangeContents (domSelection w)) as [contents|].
    + destruct Hcopy as (acc & Hacc & ->). destruct Hcut as (acc' & Hacc' & ->).
      rewrite Hacc in Hacc'. injection Hacc' as <-. repeat split.
    + rewrite Hcopy, Hcut. repeat split.
Qed.

(** X13: what a copy never touches.  Whatever the world, after either build
    of [editOnCopy] the editor holds the same state and is in the same
    mode, the timer queue, the selection of the window and the target of
    the event are as they were, and so is every item of the event's
    clipboard other than [text/plain] and [text/html]. *)
Theorem copy_leaves_the_editor_state (w : World) (format : string) :
  format <> "text/plain" ->
  format <> "text/html" ->
  forall after,
    after = snd (editOnCopy getFragmentFromSelection serialise outerHTML parseHTML w)
    \/ after = snd (editOnCopy_part001 getFragmentFromSelection serialise outerHTML w) ->
    _latestEditorState (editor after) = _latestEditorState (editor w)
    /\ mode (editor after) = mode (editor w)
    /\ timers after = timers w
    /\ domSelection after = domSelection w
    /\ target (event after) = target (event w)
    /\ clipboardItem format after = clipboardItem format w.
Proof.
  intros Hplain Hhtml after Hafter.
  destruct (isCollapsed (getSelection (_latestEditorState (editor w)))) eqn:Hsel.
  - rewrite (editOnCopy_collapsed _ _ _ _ w Hsel),
      (editOnCopy_part001_collapsed _ _ _ w Hsel) in Hafter.
    destruct Hafter as [-> | ->]; repeat split.
  - rewrite (editOnCopy_writePayload w Hsel),
      (editOnCopy_part001_selected _ _ _ w Hsel) in Hafter. cbn zeta in Hafter.
    pose proof (writePayload_cases (_latestEditorState (editor w))
                  (getFragmentFromSelection (_latestEditorState (editor w)))
                  (cachedWorld w (getFragmentFromSelection (_latestEditorState (editor w)))))
      as Hcopy.
    cbn [cachedWorld event domSelection] in Hcopy.
    unfold clipboardItem.
    destruct (clipboardData (event w)) as [items|] eqn:Hdata;
      [|rewrite Hcopy in Hafter; destruct Hafter as [-> | ->];
        cbn [snd cachedWorld editor event timers domSelection _latestEditorState mode];
        rewrite Hdata; repeat split].
    destruct (getFragmentFromSelection (_latestEditorState (editor w))) as [blocks|];
      [|rewrite Hcopy in Hafter; destruct Hafter as [-> | ->];
        cbn [snd cachedWorld editor event timers domSelection _latestEditorState mode];
        rewrite Hdata; repeat split].
    destruct (rangeContents (domSelection w)) as [contents|].
    + destruct Hcopy as (acc & _ & Hcopy). rewrite Hcopy in Hafter.
      destruct Hafter as [-> | ->];
        cbn [snd populatedWorld populatedWorld_part001 cachedWorld editor event timers
             domSelection _latestEditorState mode target clipboardData];
        rewrite ?lookup_insert_ne by congruence; repeat split.
    + rewrite Hcopy in Hafter. destruct Hafter as [-> | ->];
        cbn [snd cachedWorld editor event timers domSelection _latestEditorState mode];
        rewrite Hdata; repeat split.
Qed.

(** X14: the default action is prevented only with the clipboard filled.
    When a copy or a cut of a selection that is not collapsed leaves the
    default action prevented and it was not before, the handler has
    returned, the event's clipboard holds the text of the window's
    selection as [text/plain] and markup as [text/html], and the cache
    holds the fragment. *)
Theorem default_prevented_only_with_payload (w : World) (handler : Js unit) :
  handler = editOnCopy getFragmentFromSelection serialise outerHTML parseHTML
  \/ handler = editOnCopy_part001 getFragmentFromSelection serialise outerHTML
  \/ handler =
       editOnCut getFragmentFromSelection serialise getScrollPosition outerHTML parseHTML ->
  isCollapsed (getSelection (_latestEditorState (editor w))) = false ->
  defaultPrevented (event w) = false ->
  defaultPrevented (event (snd (handler w))) = true ->
  fst (handler w) = Normal tt
  /\ plainPayload (snd (handler w)) = Some (selectionText (domSelection w))
  /\ is_Some (htmlPayload (snd (handler w)))
  /\ is_Some (_clipboard (editor (snd (handler w))))
  /\ _clipboard (editor (snd (handler w))) =
       getFragmentFromSelection (_latestEditorState (editor w)).
Proof.
  intros Hhandler Hsel Hbefore.
  pose proof (writePayload_cases (_latestEditorState (editor w))
                (getFragmentFromSelection (_latestEditorState (editor w)))
                (cachedWorld w (getFragmentFromSelection (_latestEditorState (editor w)))))
    as Hcopy.
  pose proof (writePayload_cases (_latestEditorState (editor w))
                (getFragmentFromSelection (_latestEditorState (editor w)))
                (cutWorld w (getFragmentFromSelection (_latestEditorState (editor w)))
                   (recoveryOf getScrollPosition w)))
    as Hcut.
  cbn [cachedWorld cutWorld event domSelection] in Hcopy, Hcut.
  assert (Hpart := editOnCopy_part001_selected getFragmentFromSelection serialise
                     outerHTML w Hsel).
  cbn zeta in Hpart.
  assert (Heq : handler w =
                  writePayload serialise outerHTML parseHTML (_latestEditorState (editor w))
                    (getFragmentFromSelection (_latestEditorState (editor w)))
                    (cachedWorld w
                       (getFragmentFromSelection (_latestEditorState (editor w))))
                \/ handler w =
                     editOnCopy_part001 getFragmentFromSelection serialise outerHTML w
                \/ handler w =
                     writePayload serialise outerHTML parseHTML
                       (_latestEditorState (editor w))
                       (getFragmentFromSelection (_latestEditorState (editor w)))
                       (cutWorld w
                          (getFragmentFromSelection (_latestEditorState (editor w)))
                          (recoveryOf getScrollPosition w))).
  { destruct Hhandler as [-> | [-> | ->]].
    - left. apply editOnCopy_writePayload, Hsel.
    - right. left. reflexivity.
    - right. right. apply editOnCut_writePayload, Hsel. }
  clear Hhandler. unfold plainPayload, htmlPayload.
  destruct (clipboardData (event w)) as [items|];
    [|destruct Heq as [-> | [-> | ->]]; rewrite ?Hcopy, ?Hcut, ?Hpart;
      cbn [snd cachedWorld cutWorld event]; congruence].
  destruct (getFragmentFromSelection (_latestEditorState (editor w))) as [blocks|];
    [|destruct Heq as [-> | [-> | ->]]; rewrite ?Hcopy, ?Hcut, ?Hpart;
      cbn [snd cachedWorld cutWorld event]; congruence].
  destruct (rangeContents (domSelection w)) as [contents|];
    [|destruct Heq as [-> | [-> | ->]]; rewrite ?Hcopy, ?Hcut, ?Hpart;
      cbn [snd cachedWorld cutWorld event]; congruence].
  destruct Hcopy as (acc & _ & Hcopy). destruct Hcut as (acc' & _ & Hcut).
  intros _.
  destruct Heq as [-> | [-> | ->]]; rewrite ?Hcopy, ?Hcut, ?Hpart;
    cbn [fst snd populatedWorld populatedWorld_part001 cachedWorld cutWorld editor event
         domSelection clipboardData _clipboard];
    rewrite ?lookup_insert_eq, ?lookup_insert_ne, ?lookup_insert_eq by decided;
    repeat split; eexists; reflexivity.
Qed.

End HandlerFrame.

Lemma copy_without_range_fills_only_the_cache_witness :
  fst (editOnCopy fragmentOf serialiseKeys serializeNode parseMarkup
         (rangelessWorld (Some ∅))) = Throw IndexSizeError
  /\ log (snd (editOnCopy fragmentOf serialiseKeys serializeNode parseMarkup
                 (rangelessWorld (Some ∅)))) = [SetClipboard (Some fragmentAB)]
  /\ event (snd (editOnCopy_part001 fragmentOf serialiseKeys serializeNode
                   (rangelessWorld (Some ∅)))) = event (rangelessWorld (Some ∅)).
Proof.
  destruct (copy_without_range_fills_only_the_cache fragmentOf serialiseKeys
              serializeNode parseMarkup (rangelessWorld (Some ∅)) ∅ fragmentAB
              eq_refl eq_refl eq_refl eq_refl _ (or_introl eq_refl))
    as (Hthrow & Hlog & _).
  destruct (copy_without_range_fills_only_the_cache fragmentOf serialiseKeys
              serializeNode parseMarkup (rangelessWorld (Some ∅)) ∅ fragmentAB
              eq_refl eq_refl eq_refl eq_refl _ (or_intror eq_refl))
    as (_ & _ & _ & Hevent & _).
  split; [exact Hthrow|]. split; [exact Hlog | exact Hevent].
Defined.


Lemma copy_leaves_the_editor_state_witness :
  clipboardItem "text/uri-list"
    (snd (editOnCopy fragmentOf serialiseKeys serializeNode parseMarkup
            (selectedWorld (Some {["text/uri-list" := "about:blank"]})))) =
    Some "about:blank".
Proof.
  destruct (copy_leaves_the_editor_state fragmentOf serialiseKeys serializeNode
              parseMarkup (selectedWorld (Some {["text/uri-list" := "about:blank"]}))
              "text/uri-list" ltac:(discriminate) ltac:(discriminate) _
              (or_introl eq_refl))
    as (_ & _ & _ & _ & _ & Hitem).
  rewrite Hitem. vm_compute. reflexivity.
Defined.

Lemma default_prevented_only_with_payload_witness :
  plainPayload
    (snd (editOnCut fragmentOf serialiseKeys scrollOrigin serializeNode parseMarkup
            (selectedWorld (Some ∅)))) = Some "text of qtext of r".
Proof.
  destruct (default_prevented_only_with_payload fragmentOf serialiseKeys scrollOrigin
              serializeNode parseMarkup (selectedWorld (Some ∅)) _
              (or_intror (or_intror eq_refl)) eq_refl eq_refl
              ltac:(vm_compute; reflexivity))
    as (_ & Hplain & _).
  exact Hplain.
Defined.
